(** * Export-manifest synchronizer: post-build.cjs and sync-file.cjs

    A shallow embedding of the two scripts under
    [packages/scripts/bin]: the stub generator [generatePublicAPI]
    (post-build.cjs), the ignore-file and package-metadata rewriters
    [registerGITIgnoreFiles] and [registerExposedFiles] (sync-file.cjs),
    and the command-line reducer [argument] both scripts share.

    Conventions of the embedding.
    - JavaScript strings are [string]; every separator the scripts look
      for is ASCII, so byte-wise and code-unit-wise operations agree.
    - [undefined] is [None]; calling [forEach] on it throws a TypeError,
      which is an [outcome]. An [async] function that throws returns a
      rejected promise, so the two rewriters of sync-file.cjs both run
      and each has its own outcome.
    - The file system is a finite map from paths to contents; directory
      creation and I/O failure are outside the model, and so is
      [generateDTSFileForESM], which only reads and writes the compiled
      output tree.
    - Own properties of a JavaScript object are a [gmap] keyed by
      property name; enumeration order is not modelled. *)

From Stdlib Require Import String Ascii List ZArith Lia Bool.
From stdpp Require Import gmap strings list fin_maps.

Set Warnings "-register-all".

(** ** JavaScript string primitives used by the scripts *)

Module JsString.

(** The line break "\n". *)
Definition LF : ascii := ascii_of_nat 10.
Definition LFs : string := String LF "".

(** [s.repeat(count)] *)
Fixpoint repeat (s : string) (count : nat) : string :=
  match count with
  | O => ""
  | S n => s +:+ repeat s n
  end.

(** [s.startsWith(search)] *)
Definition startsWith (s search : string) : bool := String.prefix search s.

(** [s.slice(start)] for a non-negative [start] *)
Fixpoint slice (start : nat) (s : string) : string :=
  match start, s with
  | O, _ => s
  | S _, EmptyString => ""
  | S n, String _ rest => slice n rest
  end.

(** [s.includes(search)] *)
Fixpoint includes (s search : string) : bool :=
  String.prefix search s ||
  match s with
  | EmptyString => false
  | String _ rest => includes rest search
  end.

(** [s.split(sep)] for a one-character separator *)
Fixpoint split (sep : ascii) (s : string) : list string :=
  match s with
  | EmptyString => [""]
  | String c rest =>
      if Ascii.eqb c sep then "" :: split sep rest
      else match split sep rest with
           | piece :: pieces => String c piece :: pieces
           | [] => [String c ""]
           end
  end.

(** [l.join(sep)] *)
Fixpoint join (sep : string) (l : list string) : string :=
  match l with
  | [] => ""
  | [x] => x
  | x :: rest => x +:+ sep +:+ join sep rest
  end.

(** [(s.match(/c/g) || []).length] for a one-character pattern *)
Fixpoint count_char (c : ascii) (s : string) : nat :=
  match s with
  | EmptyString => 0
  | String d rest => (if Ascii.eqb d c then 1 else 0) + count_char c rest
  end.

(** Truthiness of a string: only the empty string is falsy. *)
Definition truthy (s : string) : bool := negb (String.eqb s "").

(** [s.endsWith(search)] *)
Fixpoint endsWith (s search : string) : bool :=
  String.eqb s search ||
  match s with
  | EmptyString => false
  | String _ rest => endsWith rest search
  end.

(** [s.replace(pattern, replacement)] for a string pattern: the first
    occurrence only. The replacement is taken literally (the scripts
    pass the empty string). *)
Fixpoint replace (s pattern replacement : string) : string :=
  if String.prefix pattern s
  then replacement +:+ slice (String.length pattern) s
  else match s with
       | EmptyString => ""
       | String c rest => String c (replace rest pattern replacement)
       end.

End JsString.

(** ** The entry-point descriptor (etc/config/entrypoint-file.json) *)

Module Descriptor.

(** JSON values, for package metadata and [export-config]. *)
Inductive json :=
| JNull
| JBool (b : bool)
| JNum (n : Z)
| JStr (s : string)
| JArr (l : list json)
| JObj (m : gmap string json).

(** An item of ["entry-point"], by the run-time tests the generator
    applies to it: a string, an object with string fields [type] and
    [name], or anything else. *)
Inductive entry_point_item :=
| ItemString (s : string)
| ItemObject (type name : string)
| ItemOther.

(** The ["entry-point"] field: an array, or absent / not an array. *)
Inductive entry_point :=
| EntryPointArray (items : list entry_point_item)
| EntryPointOther.

Record JsFileEntry := {
  name : string;
  file : string;
  export_kind : string;
  entry_point_of : entry_point
}.

Record StaticFileEntry := {
  static_name : string;
  static_file : string
}.

Record CustomConfigEntry := {
  custom_name : string;
  export_config : json;
  files_config : list string
}.

(** The descriptor as parsed: each field may be absent. *)
Record EntryPointDescriptor := {
  js_file : option (list JsFileEntry);
  static_files : option (list StaticFileEntry);
  custom_config : option (list CustomConfigEntry)
}.

End Descriptor.

(** ** Exceptions *)

Module Js.

Inductive exn := TypeError.

Inductive outcome (A : Type) :=
| Returned (a : A)
| Threw (e : exn).
Arguments Returned {A} a.
Arguments Threw {A} e.

#[global] Instance outcome_bind : MBind outcome := fun A B k m =>
  match m with
  | Returned a => k a
  | Threw e => Threw e
  end.

(** [arr.forEach(f)] where the callback updates the state [S];
    [undefined.forEach] throws. *)
Definition forEach {A S} (arr : option (list A)) (f : S -> A -> S) (s : S)
  : outcome S :=
  match arr with
  | Some l => Returned (foldl f s l)
  | None => Threw TypeError
  end.

(** [obj[key] = value] on a plain object: the key ["__proto__"] reaches
    the prototype setter and creates no own property. *)
Definition assign {V} (key : string) (value : V) (obj : gmap string V)
  : gmap string V :=
  if String.eqb key "__proto__" then obj else <[key := value]> obj.

End Js.

(** ** post-build.cjs *)

Module PostBuild.
Import JsString Descriptor Js.

(** The world the generator acts on: files by path, and the lines
    printed with [console.log]. *)
Record World := {
  files : gmap string string;
  console : list string
}.

Definition log (line : string) (w : World) : World :=
  {| files := files w; console := console w ++ [line] |}.

(** [ensureDirAndWriteFile(filePath, content)] *)
Definition ensureDirAndWriteFile (filePath content : string) (w : World)
  : World :=
  {| files := <[filePath := content]> (files w); console := console w |}.

(** The four [let] variables of the loop body. *)
Record Contents := {
  modernJSContent : string;
  oldJSContent : string;
  modernDTSContent : string;
  dtsContent : string
}.

Definition noContents : Contents :=
  {| modernJSContent := ""; oldJSContent := "";
     modernDTSContent := ""; dtsContent := "" |}.

Definition depth (name : string) : nat := count_char "/" name.

Definition relativePrefix (name : string) : string :=
  if 0 <? depth name then repeat "../" (depth name) else "".

Definition normalizedFile (name file : string) : string :=
  if (0 <? depth name) && startsWith file "./" then slice 2 file else file.

Definition adjustedFile (name file : string) : string :=
  relativePrefix name +:+ normalizedFile name file.

(** The two [reduce] callbacks; [temp] holds the accumulated list when
    it is non-empty. *)
Definition reduceDTS (result : string) (item : entry_point_item) : string :=
  let temp := if truthy result then [result] else [] in
  match item with
  | ItemString s => join ", " (temp ++ [s])
  | ItemObject type name =>
      if String.eqb type "interface" && truthy name
      then join ", " (temp ++ ["type " +:+ name])
      else result
  | ItemOther => result
  end.

Definition reduceNonType (result : string) (item : entry_point_item)
  : string :=
  let temp := if truthy result then [result] else [] in
  match item with
  | ItemString s => join ", " (temp ++ [s])
  | _ => result
  end.

Definition formattedEntryPointDTS (entryPoint : list entry_point_item)
  : string := foldl reduceDTS "" entryPoint.

Definition formattedEntryPointNonType (entryPoint : list entry_point_item)
  : string := foldl reduceNonType "" entryPoint.

(** The [switch (kind)] statement, for the value [adjusted] of the
    constant [adjustedFile] computed before it. *)
Definition contentsFor (adjusted : string) (item : JsFileEntry) : Contents :=
  if String.eqb (export_kind item) "default export" then
    {| modernJSContent :=
         "'use client';" +:+ LFs +:+ "export { default } from '"
           +:+ adjusted +:+ ".esm';" +:+ LFs;
       oldJSContent :=
         "'use client';" +:+ LFs +:+ "module.exports = require('"
           +:+ adjusted +:+ "');" +:+ LFs;
       modernDTSContent :=
         "export { default } from '" +:+ adjusted +:+ ".esm';" +:+ LFs;
       dtsContent :=
         "export { default } from '" +:+ adjusted +:+ "';" +:+ LFs |}
  else if String.eqb (export_kind item) "named export" then
    match entry_point_of item with
    | EntryPointArray ((_ :: _) as entryPoint) =>
        let dts := formattedEntryPointDTS entryPoint in
        let nonType := formattedEntryPointNonType entryPoint in
        {| modernJSContent :=
             "'use client';" +:+ LFs +:+ "export { " +:+ nonType
               +:+ " } from '" +:+ adjusted +:+ ".esm';" +:+ LFs;
           oldJSContent :=
             join LFs
               [ "'use client';";
                 "const { " +:+ nonType +:+ " } = require('"
                   +:+ adjusted +:+ "');";
                 "module.exports = { " +:+ nonType +:+ " };" ];
           modernDTSContent :=
             "export { " +:+ dts +:+ " } from '" +:+ adjusted
               +:+ ".esm';" +:+ LFs;
           dtsContent :=
             "export { " +:+ dts +:+ " } from '" +:+ adjusted
               +:+ "';" +:+ LFs |}
    | _ => noContents
    end
  else noContents.

Definition buildContents (item : JsFileEntry) : Contents :=
  contentsFor (adjustedFile (name item) (file item)) item.

(** The test guarding the early [return] of the loop body. *)
Definition incomplete (c : Contents) : bool :=
  negb (truthy (modernJSContent c)) || negb (truthy (oldJSContent c))
  || negb (truthy (modernDTSContent c)) || negb (truthy (dtsContent c)).

(** The two lines the loop body prints. *)
Definition failureLine (item : JsFileEntry) : string :=
  "❌ Failured " +:+ name item +:+ ".js and " +:+ name item +:+ ".d.ts".

Definition successLine (item : JsFileEntry) : string :=
  "✅ Success create " +:+ name item +:+ ".js and " +:+ name item
    +:+ ".d.ts".

Section Generator.
(** [path.join] of the Node standard library. *)
Variable path_join : string -> string -> string.

(** The body of [jsFiles.forEach]. *)
Definition generateItem (dir : string) (w : World) (item : JsFileEntry)
  : World :=
  let n := name item in
  let jsFilePath := path_join dir ("./" +:+ n +:+ ".js") in
  let modernJSFilePath := path_join dir ("./" +:+ n +:+ ".esm.js") in
  let dtsFilePath := path_join dir ("./" +:+ n +:+ ".d.ts") in
  let modernDtsFilePath := path_join dir ("./" +:+ n +:+ ".esm.d.ts") in
  let c := buildContents item in
  if incomplete c then
    log (failureLine item) w
  else
    let w := ensureDirAndWriteFile jsFilePath (oldJSContent c) w in
    let w := ensureDirAndWriteFile modernJSFilePath (modernJSContent c) w in
    let w := ensureDirAndWriteFile dtsFilePath (dtsContent c) w in
    let w := ensureDirAndWriteFile modernDtsFilePath (modernDTSContent c) w in
    log (successLine item) w.

Definition generatePublicAPI (dir : string) (jsFiles : list JsFileEntry)
  (w : World) : World :=
  foldl (generateItem dir) w jsFiles.

(** The reader of post-build.cjs: ["js-file"] defaults to [[]]. *)
Definition main (dir : string) (d : EntryPointDescriptor) (w : World)
  : World :=
  let jsFiles := default [] (js_file d) in
  generatePublicAPI dir jsFiles w.
End Generator.

(** *** The declaration mirror *)

(** What [fs.readdirSync] and [fs.statSync(...).isDirectory()] show of a
    directory: its entries by name, each a file or a directory. *)
Inductive DirEntry :=
| File
| Directory (entries : list (string * DirEntry)).

(** The test of [getAllDtsFiles] on a file name. *)
Definition isRegularDts (file : string) : bool :=
  endsWith file ".d.ts" && negb (endsWith file ".esm.d.ts")
  && negb (endsWith file ".cjs.d.ts").



(** The name handed to [path.join(distDir, ...)] for the mirror. *)
Definition esmRelativePath (relativePath : string) : string :=
  replace relativePath ".d.ts" "" +:+ ".esm.d.ts".

Section Mirror.
(** [path.join], [path.relative] and [path.basename] of the Node
    standard library. *)
Variable path_join : string -> string -> string.
Variable path_relative : string -> string -> string.
Variable path_basename : string -> string -> string.

(** [getAllDtsFiles(dir, fileList)] on the directory [tree] found at
    [dir]; the array [fileList] is shared by the recursive calls and
    returned. The function is only ever called on directories. *)
Fixpoint getAllDtsFilesIn (dir : string) (tree : DirEntry)
  (fileList : list string) {struct tree} : list string :=
  match tree with
  | File => fileList
  | Directory entries =>
      (fix forEachFile (files : list (string * DirEntry))
           (fileList : list string) {struct files} : list string :=
         match files with
         | [] => fileList
         | (file, node) :: rest =>
             let filePath := path_join dir file in
             let fileList :=
               match node with
               | Directory _ => getAllDtsFilesIn filePath node fileList
               | File =>
                   if isRegularDts file then fileList ++ [filePath]
                   else fileList
               end in
             forEachFile rest fileList
         end) entries fileList
  end.

Definition getAllDtsFiles (dir : string) (entries : list (string * DirEntry))
  (fileList : list string) : list string :=
  getAllDtsFilesIn dir (Directory entries) fileList.


End Mirror.

End PostBuild.

(** ** sync-file.cjs *)

Module SyncFile.
Import JsString Descriptor Js.

Definition GIT_IGNORE_START_LINE : string := "### Start Generated Section".
Definition GIT_IGNORE_END_LINE : string := "### End Generated Section".

(** [lines.filter(...)]: the callback reads and writes the flag
    [inGeneratedSection], threaded here from line to line. *)
Fixpoint filterLines (inGeneratedSection : bool) (lines : list string)
  : list string :=
  match lines with
  | [] => []
  | line :: rest =>
      if includes line GIT_IGNORE_START_LINE then filterLines true rest
      else if includes line GIT_IGNORE_END_LINE then filterLines false rest
      else if inGeneratedSection then filterLines inGeneratedSection rest
      else line :: filterLines inGeneratedSection rest
  end.

(** The four names pushed for an entry, in the order of the source. *)
Definition generatedNames (item : JsFileEntry) : list string :=
  [ name item +:+ ".js"; name item +:+ ".d.ts";
    name item +:+ ".esm.js"; name item +:+ ".esm.d.ts" ].

Definition pushNames (acc : list string) (item : JsFileEntry) : list string :=
  acc ++ generatedNames item.

(** [registerGITIgnoreFiles]: from the content read at
    [GIT_IGNORE_FILE_PATH] to the content written back there; when it
    throws, nothing is written. *)
Definition registerGITIgnoreFiles (jsFiles : option (list JsFileEntry))
  (content : string) : outcome string :=
  let lines := split LF content in
  let filteredLines := filterLines false lines in
  let filteredLines := filteredLines ++ [GIT_IGNORE_START_LINE] in
  filteredLines ← forEach jsFiles pushNames filteredLines;
  let filteredLines := filteredLines ++ [GIT_IGNORE_END_LINE] in
  Returned (join LFs filteredLines).

(** The pair [content.files], [content.exports]: both are fresh objects
    reached only through [content], so the loops that mutate them are
    folds over this pair and the final values are what [content] holds
    when it is written. *)
Definition Exposed : Type := list string * gmap string json.

Definition conditions (import_ require_ types_ : string) : json :=
  JObj (<["import" := JStr import_]>
        (<["require" := JStr require_]>
         (<["types" := JStr types_]> ∅))).

Definition applyCustomConfig (st : Exposed) (item : CustomConfigEntry)
  : Exposed :=
  let exports := assign (custom_name item) (export_config item) st.2 in
  (st.1 ++ files_config item, exports).

Definition applyStaticFile (st : Exposed) (item : StaticFileEntry)
  : Exposed :=
  (st.1, assign ("./" +:+ static_name item) (JStr (static_file item)) st.2).

Definition applyJsFile (st : Exposed) (item : JsFileEntry) : Exposed :=
  let n := name item in
  let files := st.1 ++ generatedNames item in
  let exports :=
    assign ("./" +:+ n)
      (conditions ("./" +:+ n +:+ ".esm.js") ("./" +:+ n +:+ ".esm.js")
                  ("./" +:+ n +:+ ".d.ts")) st.2 in
  let exports :=
    assign ("./" +:+ n +:+ ".cjs")
      (conditions ("./" +:+ n +:+ ".js") ("./" +:+ n +:+ ".js")
                  ("./" +:+ n +:+ ".d.ts")) exports in
  (files, exports).

(** [registerExposedFiles]: from the parsed package.json to the object
    handed to [JSON.stringify]; when it throws, nothing is written. *)
Definition registerExposedFiles
  (customConfig : option (list CustomConfigEntry))
  (jsFiles : option (list JsFileEntry))
  (staticFiles : option (list StaticFileEntry))
  (PACKAGE_JSON_CONTENT : gmap string json) : outcome (gmap string json) :=
  let content := PACKAGE_JSON_CONTENT in
  let st : Exposed := (["dist"], ∅) in
  st ← forEach customConfig applyCustomConfig st;
  st ← forEach staticFiles applyStaticFile st;
  st ← forEach jsFiles applyJsFile st;
  let content := <["files" := JArr (JStr <$> st.1)]> content in
  let content := <["exports" := JObj st.2]> content in
  Returned content.

(** The reader of sync-file.cjs: the three fields are destructured
    without defaults and handed to both rewriters. *)
Definition main (d : EntryPointDescriptor) (gitignore : string)
  (packageJson : gmap string json)
  : outcome string * outcome (gmap string json) :=
  let customConfig := custom_config d in
  let jsFiles := js_file d in
  let staticFiles := static_files d in
  ( registerGITIgnoreFiles jsFiles gitignore,
    registerExposedFiles customConfig jsFiles staticFiles packageJson ).

End SyncFile.

(** ** The command-line reducer of both scripts *)

Module Cli.
Import JsString Js.

(** [const [key, value] = current.split("=")]; [split] never returns
    the empty list. *)
Definition keyValue (current : string) : string * option string :=
  match split "=" current with
  | key :: value :: _ => (key, Some value)
  | key :: [] => (key, None)
  | [] => ("", None)
  end.

(** The reducer: a key already owned by [result] is left alone. The
    stored value is [None] when the argument has no ["="]. *)
Definition step (result : gmap string (option string)) (current : string)
  : gmap string (option string) :=
  let '(key, value) := keyValue current in
  match result !! key with
  | Some _ => result
  | None => assign key value result
  end.

(** [process.argv.slice(2).reduce(..., {})] *)
Definition argument (argv : list string) : gmap string (option string) :=
  foldl step ∅ argv.

(** [packageName], when [argument["--file-name"]] is truthy. *)
Definition packageName (argv : list string) : option string :=
  match argument argv !! "--file-name" with
  | Some (Some v) => if truthy v then Some v else None
  | _ => None
  end.

End Cli.

(** ** sync-file.cjs, the documented copy (src/unnamed/part_002) *)

Module SyncFileDocumented.
Import Descriptor Js.

(** The reader of this copy gives each of the three fields the default
    [[]]; the two rewriters are those of sync-file.cjs. *)
Definition main (d : EntryPointDescriptor) (gitignore : string)
  (packageJson : gmap string json)
  : outcome string * outcome (gmap string json) :=
  let customConfig := default [] (custom_config d) in
  let jsFiles := default [] (js_file d) in
  let staticFiles := default [] (static_files d) in
  ( SyncFile.registerGITIgnoreFiles (Some jsFiles) gitignore,
    SyncFile.registerExposedFiles (Some customConfig) (Some jsFiles)
      (Some staticFiles) packageJson ).

End SyncFileDocumented.

(** ** packages/eslint/eslint.config.mjs: the ignored generated files *)

Module EslintConfig.
Import Descriptor Js.

(** The callback of [jsFiles.reduce]. *)
Definition pushIgnored (result : list string) (item : JsFileEntry)
  : list string :=
  result ++ [ name item +:+ ".js"; name item +:+ ".d.ts";
              name item +:+ ".esm.js"; name item +:+ ".esm.d.ts" ].

(** [ignoredGeneratedFile]; ["js-file"] is destructured without a
    default, and [undefined.reduce] throws. *)
Definition ignoredGeneratedFile (jsFiles : option (list JsFileEntry))
  : outcome (list string) :=
  match jsFiles with
  | Some l =>
      Returned (foldl pushIgnored
                  ["index.js"; "index.d.ts"; "index.esm.js"; "index.esm.d.ts"]
                  l)
  | None => Threw TypeError
  end.

End EslintConfig.

(** ** The behaviour the specification describes, in its own words,
       and the vocabulary of the statements *)

Module Spec.
Import Descriptor.

(** Path adjustment: for a name with [k] separators, [k] copies of
    "../" in front of the file path, a leading "./" removed first; for
    [k = 0] the file path itself. *)
Definition stripDotSlash (file : string) : string :=
  match file with
  | String a (String b rest) =>
      if Ascii.eqb a "." && Ascii.eqb b "/" then rest else file
  | _ => file
  end.

Definition prefixedPath (k : nat) (file : string) : string :=
  match k with
  | O => file
  | S _ => String.concat "" (replicate k "../") +:+ stripDotSlash file
  end.

(** The declaration list: plain strings unchanged, interface-marked
    entries with a name rendered as "type <name>". *)
Definition declarationName (item : entry_point_item) : option string :=
  match item with
  | ItemString s => Some s
  | ItemObject type name =>
      if decide (type = "interface" ∧ name ≠ "")
      then Some ("type " +:+ name) else None
  | ItemOther => None
  end.

(** The value list: plain strings only. *)
Definition valueName (item : entry_point_item) : option string :=
  match item with
  | ItemString s => Some s
  | _ => None
  end.

(** Empty names at the head of a list leave no trace in the joined
    text. *)
Fixpoint dropEmpty (l : list string) : list string :=
  match l with
  | "" :: rest => dropEmpty rest
  | _ => l
  end.

(** The value of the last write to [key] in a sequence of writes. *)
Fixpoint lastWrite {V} (key : string) (writes : list (string * V))
  : option V :=
  match writes with
  | [] => None
  | (k, v) :: rest =>
      match lastWrite key rest with
      | Some v' => Some v'
      | None => if decide (k = key) then Some v else None
      end
  end.

(** The entries the generator gives up on: an export kind outside the
    two known ones, or a named export whose entry point is empty or not
    an array at all (missing, or any other value): the test
    [Array.isArray(entryPoint) && entryPoint.length > 0] of the source. *)
Definition unsupported (item : JsFileEntry) : Prop :=
  (export_kind item <> "default export"
   /\ export_kind item <> "named export")
  \/ (export_kind item = "named export"
      /\ (entry_point_of item = EntryPointArray []
          \/ entry_point_of item = EntryPointOther)).

(** A sequence of writes applied with the store operation [put]. *)
Definition putAll {V} (put : string -> V -> gmap string V -> gmap string V)
  (m : gmap string V) (writes : list (string * V)) : gmap string V :=
  foldl (fun acc kv => put kv.1 kv.2 acc) m writes.

(** The file writes of one entry of the generator, in order. *)
Definition stubWrites (path_join : string -> string -> string)
  (dir : string) (item : JsFileEntry) : list (string * string) :=
  let c := PostBuild.buildContents item in
  if PostBuild.incomplete c then []
  else [ (path_join dir ("./" +:+ name item +:+ ".js"),
          PostBuild.oldJSContent c);
         (path_join dir ("./" +:+ name item +:+ ".esm.js"),
          PostBuild.modernJSContent c);
         (path_join dir ("./" +:+ name item +:+ ".d.ts"),
          PostBuild.dtsContent c);
         (path_join dir ("./" +:+ name item +:+ ".esm.d.ts"),
          PostBuild.modernDTSContent c) ].

(** A line that contains neither marker text. *)
Definition markerFree (line : string) : bool :=
  negb (JsString.includes line SyncFile.GIT_IGNORE_START_LINE)
  && negb (JsString.includes line SyncFile.GIT_IGNORE_END_LINE).

(** The number of lines that contain a marker text. *)
Definition countMarker (marker : string) (lines : list string) : nat :=
  length (filter (fun line => JsString.includes line marker = true) lines).

(** The generated block: the names of every entry. *)
Definition generatedBlock (jsFiles : list JsFileEntry) : list string :=
  flat_map SyncFile.generatedNames jsFiles.

(** The two exports-map values of a JS entry named [n]. *)
Definition esmConditions (n : string) : json :=
  SyncFile.conditions ("./" +:+ n +:+ ".esm.js") ("./" +:+ n +:+ ".esm.js")
    ("./" +:+ n +:+ ".d.ts").

Definition cjsConditions (n : string) : json :=
  SyncFile.conditions ("./" +:+ n +:+ ".js") ("./" +:+ n +:+ ".js")
    ("./" +:+ n +:+ ".d.ts").


(** The writes to the exports map in the order of the specification:
    custom configuration, then static files, then JS files. *)
Definition customWrites (customConfig : list CustomConfigEntry)
  : list (string * json) :=
  (fun item => (custom_name item, export_config item)) <$> customConfig.

Definition staticWrites (staticFiles : list StaticFileEntry)
  : list (string * json) :=
  (fun item => ("./" +:+ static_name item, JStr (static_file item)))
    <$> staticFiles.

Definition jsWrites (names : list string) : list (string * json) :=
  flat_map (fun n => [ ("./" +:+ n, esmConditions n);
                       ("./" +:+ n +:+ ".cjs", cjsConditions n) ]) names.

Definition exportWrites (customConfig : list CustomConfigEntry)
  (staticFiles : list StaticFileEntry) (jsFiles : list JsFileEntry)
  : list (string * json) :=
  customWrites customConfig ++ staticWrites staticFiles
    ++ jsWrites (name <$> jsFiles).

(** The published-files list of the specification. *)
Definition exposedFiles (customConfig : list CustomConfigEntry)
  (jsFiles : list JsFileEntry) : list string :=
  "dist" :: flat_map files_config customConfig ++ generatedBlock jsFiles.

(** Every file under a directory with its path, depth first in the
    order of the entries. *)
Fixpoint listFiles (path_join : string -> string -> string) (dir : string)
  (tree : PostBuild.DirEntry) {struct tree} : list (string * string) :=
  match tree with
  | PostBuild.File => []
  | PostBuild.Directory entries =>
      (fix each (files : list (string * PostBuild.DirEntry))
         : list (string * string) :=
         match files with
         | [] => []
         | (file, node) :: rest =>
             match node with
             | PostBuild.Directory _ =>
                 listFiles path_join (path_join dir file) node
             | PostBuild.File => [(path_join dir file, file)]
             end ++ each rest
         end) entries
  end.

(** The paths of the regular declaration files among them. *)
Definition regularDtsPaths (path_join : string -> string -> string)
  (dir : string) (tree : PostBuild.DirEntry) : list string :=
  fst <$> filter (fun pn => PostBuild.isRegularDts pn.2 = true)
            (listFiles path_join dir tree).

(** The line logged for an entry of the generator. *)
Definition logLine (item : JsFileEntry) : string :=
  if PostBuild.incomplete (PostBuild.buildContents item)
  then PostBuild.failureLine item else PostBuild.successLine item.

End Spec.

(** ** Sample inputs *)

Module Sample.
Import JsString Descriptor.

(** Two entries, the first named like the end marker of the ignore
    file. *)
Definition markerEntry : JsFileEntry :=
  {| name := "### End Generated Section"; file := "./dist/marker";
     export_kind := "default export"; entry_point_of := EntryPointOther |}.

Definition plainEntry : JsFileEntry :=
  {| name := "b"; file := "./dist/b";
     export_kind := "default export"; entry_point_of := EntryPointOther |}.

(** Two entries, the second named like the CommonJS key of the
    first. *)
Definition buttonEntry : JsFileEntry :=
  {| name := "button"; file := "./dist/button";
     export_kind := "default export"; entry_point_of := EntryPointOther |}.


(** The nested default export of the specification's round trip. *)
Definition apiEntry : JsFileEntry :=
  {| name := "a/b/api"; file := "./dist/a/b/api";
     export_kind := "default export"; entry_point_of := EntryPointOther |}.

(** A named export with a value and an interface-marked item, and the
    same with the name of the interface left empty. *)
Definition hooksEntry : JsFileEntry :=
  {| name := "hooks"; file := "./dist/hooks";
     export_kind := "named export";
     entry_point_of :=
       EntryPointArray
         [ ItemString "useThing"; ItemObject "interface" "ThingProps" ] |}.

Definition namelessEntry : JsFileEntry :=
  {| name := "hooks"; file := "./dist/hooks";
     export_kind := "named export";
     entry_point_of :=
       EntryPointArray [ ItemString "useThing"; ItemObject "interface" "" ] |}.

(** A named export whose entry point is an array with one item that is
    neither a string nor an interface-marked object, as in
    ["entry-point": [42]]. *)
Definition unusableItemsEntry : JsFileEntry :=
  {| name := "hooks"; file := "./dist/hooks";
     export_kind := "named export";
     entry_point_of := EntryPointArray [ItemOther] |}.

Definition unknownKindEntry : JsFileEntry :=
  {| name := "legacy"; file := "./dist/legacy";
     export_kind := "namespace export"; entry_point_of := EntryPointOther |}.

(** [path.join] on the relative paths used here, kept literal. *)
Definition joinLiteral (dir rel : string) : string := dir +:+ "/" +:+ rel.

Definition emptyWorld : PostBuild.World :=
  {| PostBuild.files := ∅; PostBuild.console := [] |}.

(** A compiled output tree: two regular declaration files, one of them
    nested, and mirrors that are already there. *)
Definition distTree : list (string * PostBuild.DirEntry) :=
  [ ("index.d.ts", PostBuild.File);
    ("index.esm.d.ts", PostBuild.File);
    ("index.js", PostBuild.File);
    ("hooks", PostBuild.Directory
                [ ("use-thing.d.ts", PostBuild.File);
                  ("use-thing.cjs.d.ts", PostBuild.File) ]) ].

Definition stylesEntry : StaticFileEntry :=
  {| static_name := "styles"; static_file := "./dist/styles.css" |}.

Definition rootEntry : CustomConfigEntry :=
  {| custom_name := "."; export_config := JStr "./dist/index.js";
     files_config := ["dist/index.js"] |}.

End Sample.

(** * Properties *)

(** ** Strings *)

Module JsStringFacts.
Import JsString.

#[local] Arguments String.append !_ _ / : simpl nomatch.

Lemma append_empty_r (s : string) : s +:+ "" = s.
Proof. induction s as [|c s IH]; simpl; [done | by f_equal]. Qed.

Lemma append_assoc (a b c : string) : (a +:+ b) +:+ c = a +:+ (b +:+ c).
Proof. induction a as [|x a IH]; simpl; [done | by f_equal]. Qed.

Lemma prefix_spec (p s : string) :
  String.prefix p s = true <-> exists q, s = p +:+ q.
Proof.
  revert s. induction p as [|a p IH]; intros s; simpl.
  - destruct s; split; eauto.
  - destruct s as [|b s]; simpl.
    + split; [discriminate | intros [q Hq]; discriminate].
    + destruct (ascii_dec a b) as [->|Hne].
      * rewrite IH. split; intros [q Hq]; exists q; congruence.
      * split; [discriminate | intros [q Hq]; congruence].
Qed.

Lemma includes_empty (search : string) :
  includes "" search = String.prefix search "".
Proof. unfold includes. apply orb_false_r. Qed.

Lemma includes_cons (c : ascii) (s search : string) :
  includes (String c s) search
  = String.prefix search (String c s) || includes s search.
Proof. reflexivity. Qed.

Lemma includes_spec (s search : string) :
  includes s search = true <-> exists a b, s = a +:+ search +:+ b.
Proof.
  induction s as [|c s IH].
  - rewrite includes_empty, prefix_spec. split.
    + intros [q Hq]. by exists "", q.
    + intros [a [b Hab]]. destruct a; [by exists b | discriminate].
  - rewrite includes_cons, orb_true_iff, prefix_spec, IH. split.
    + intros [[q Hq] | [a [b Hab]]].
      * by exists "", q.
      * exists (String c a), b. simpl. by rewrite Hab.
    + intros [a [b Hab]]. destruct a as [|x a]; simpl in Hab.
      * left. by exists b.
      * right. exists a, b. congruence.
Qed.

(** A text found in a part of a string is found in the string. *)
Lemma includes_within (a s b search : string) :
  includes s search = true -> includes (a +:+ s +:+ b) search = true.
Proof.
  rewrite !includes_spec. intros [x [y ->]].
  exists (a +:+ x), (y +:+ b). by rewrite !append_assoc.
Qed.

Lemma split_nonempty (sep : ascii) (s : string) : split sep s <> [].
Proof.
  destruct s as [|c s]; simpl; [done |].
  destruct (Ascii.eqb c sep); [done |]. by destruct (split sep s).
Qed.

Lemma split_app_sep (sep : ascii) (x y : string) :
  split sep (x +:+ String sep y) = split sep x ++ split sep y.
Proof.
  induction x as [|c x IH]; simpl.
  - by rewrite Ascii.eqb_refl.
  - destruct (Ascii.eqb c sep); [by rewrite IH |].
    rewrite IH. pose proof (split_nonempty sep x) as Hne.
    by destruct (split sep x).
Qed.

(** Splitting a joined text gives back the pieces of each line. *)
Lemma split_join (sep : ascii) (l : list string) :
  l <> [] ->
  split sep (join (String sep "") l) = flat_map (split sep) l.
Proof.
  induction l as [|x l IH]; [done | intros _].
  destruct l as [|y l]; [simpl; by rewrite List.app_nil_r |].
  change (join (String sep "") (x :: y :: l))
    with (x +:+ String sep (join (String sep "") (y :: l))).
  rewrite split_app_sep, IH by done. done.
Qed.

Lemma split_free (sep : ascii) (s : string) :
  count_char sep s = 0 -> split sep s = [s].
Proof.
  induction s as [|c s IH]; simpl; [done |].
  destruct (Ascii.eqb c sep); [discriminate |].
  simpl. intros H. by rewrite IH.
Qed.

Lemma split_pieces_free (sep : ascii) (s : string) :
  Forall (fun x => count_char sep x = 0) (split sep s).
Proof.
  induction s as [|c s IH]; simpl.
  - by constructor.
  - destruct (Ascii.eqb c sep) eqn:E; [by constructor |].
    destruct (split sep s) as [|p ps]; [constructor; simpl; by rewrite ?E |].
    inversion IH; subst. constructor; [simpl; by rewrite E | done].
Qed.

Lemma split_first_prefix (sep : ascii) (s p : string) (ps : list string) :
  split sep s = p :: ps -> exists b, s = p +:+ b.
Proof.
  revert p ps. induction s as [|c s IH]; intros p ps; simpl.
  - intros [= <- <-]. by exists "".
  - destruct (Ascii.eqb c sep).
    + intros [= <- <-]. by exists (String c s).
    + destruct (split sep s) as [|q qs] eqn:E.
      * intros [= <- <-]. exists s. done.
      * intros [= <- <-]. destruct (IH q qs eq_refl) as [b ->].
        by exists b.
Qed.

Lemma split_piece_within (sep : ascii) (s x : string) :
  x ∈ split sep s -> exists a b, s = a +:+ x +:+ b.
Proof.
  revert x. induction s as [|c s IH]; intros x; simpl.
  - intros ->%list_elem_of_singleton. by exists "", "".
  - destruct (Ascii.eqb c sep).
    + intros [->|Hx]%elem_of_cons.
      * by exists "", (String c s).
      * destruct (IH _ Hx) as [a [b ->]]. by exists (String c a), b.
    + destruct (split sep s) as [|p ps] eqn:E.
      * intros ->%list_elem_of_singleton. by exists "", s.
      * intros [->|Hx]%elem_of_cons.
        -- destruct (split_first_prefix _ _ _ _ E) as [b ->].
           by exists "", b.
        -- destruct (IH x) as [a [b ->]]; [by right |].
           by exists (String c a), b.
Qed.

End JsStringFacts.

(** ** Last write wins *)

Module WriteFacts.
Import Spec.

Section Put.
Context {V : Type}.
(** A store operation that behaves like an insertion on the keys
    satisfying [good]. *)
Variable put : string -> V -> gmap string V -> gmap string V.
Variable good : string -> Prop.
Hypothesis put_lookup : forall k v (m : gmap string V) key,
  good key ->
  put k v m !! key = if decide (k = key) then Some v else m !! key.

Lemma putAll_lookup (writes : list (string * V)) (m : gmap string V)
  (key : string) :
  good key ->
  putAll put m writes !! key
  = match Spec.lastWrite key writes with
    | Some v => Some v
    | None => m !! key
    end.
Proof.
  intros Hgood. revert m.
  induction writes as [|[k v] writes IH]; intros m; [done |].
  unfold putAll in *. simpl. rewrite IH.
  destruct (Spec.lastWrite key writes); [done |].
  simpl. rewrite put_lookup by done. by destruct (decide (k = key)).
Qed.

Lemma putAll_app (m : gmap string V) (w1 w2 : list (string * V)) :
  putAll put m (w1 ++ w2) = putAll put (putAll put m w1) w2.
Proof. apply foldl_app. Qed.
End Put.

Lemma insert_lookup_decide {V} k (v : V) (m : gmap string V) key :
  True -> <[k := v]> m !! key = if decide (k = key) then Some v else m !! key.
Proof. intros _. apply lookup_insert. Qed.

Lemma assign_lookup_decide {V} k (v : V) (m : gmap string V) key :
  key <> "__proto__" ->
  Js.assign k v m !! key = if decide (k = key) then Some v else m !! key.
Proof.
  intros Hkey. unfold Js.assign.
  destruct (String.eqb_spec k "__proto__") as [->|Hk].
  - by rewrite decide_False.
  - apply lookup_insert.
Qed.

(** Replaying a sequence of file writes changes nothing. *)
Lemma insertAll_twice {V} (writes : list (string * V)) (m : gmap string V) :
  putAll insert (putAll insert m writes) writes = putAll insert m writes.
Proof.
  apply map_eq. intros key.
  rewrite !(putAll_lookup insert (fun _ => True) insert_lookup_decide)
    by done.
  by destruct (Spec.lastWrite key writes).
Qed.

End WriteFacts.

(** ** The stub generator *)

Module PostBuildFacts.
Import JsString Descriptor Js PostBuild Spec JsStringFacts.

#[local] Arguments String.append !_ _ / : simpl nomatch.

(** *** Path adjustment *)

Lemma repeat_concat (s : string) (k : nat) :
  repeat s k = String.concat "" (replicate k s).
Proof.
  induction k as [|k IH]; [done |].
  simpl. rewrite IH. destruct k; [apply append_empty_r | done].
Qed.

Lemma slice_stripDotSlash (file : string) :
  (if startsWith file "./" then slice 2 file else file)
  = Spec.stripDotSlash file.
Proof.
  unfold startsWith. destruct (String.prefix "./" file) eqn:E.
  - apply prefix_spec in E as [q ->]. reflexivity.
  - destruct file as [|a [|b rest]]; try reflexivity.
    unfold Spec.stripDotSlash.
    destruct (Ascii.eqb_spec a ".") as [->|Ha]; [| done].
    destruct (Ascii.eqb_spec b "/") as [->|Hb]; [| done].
    assert (String.prefix "./" (String "." (String "/" rest)) = true) as E'
      by (apply prefix_spec; by exists rest).
    congruence.
Qed.

Lemma adjustedFile_prefixedPath (n f : string) :
  adjustedFile n f = Spec.prefixedPath (count_char "/" n) f.
Proof.
  unfold adjustedFile, relativePrefix, normalizedFile, depth.
  destruct (count_char "/" n) as [|k] eqn:E; [done |].
  change (0 <? S k) with true. cbv iota. rewrite andb_true_l.
  rewrite slice_stripDotSlash, repeat_concat. done.
Qed.

(** A name with [k] separators splits into [k + 1] segments. *)
Lemma count_char_split (sep : ascii) (s : string) :
  length (split sep s) = S (count_char sep s).
Proof.
  induction s as [|c s IH]; simpl; [done |].
  destruct (Ascii.eqb c sep); simpl; [by rewrite IH |].
  pose proof (split_nonempty sep s).
  destruct (split sep s); [done | simpl in *; lia].
Qed.

Ltac normalize_append :=
  repeat first [rewrite append_assoc | progress simpl].

Ltac four_contents :=
  repeat apply Forall_cons_2; try apply Forall_nil_2.

(** Every stub that is produced carries the adjusted path right after
    an opening quote. *)
Lemma contentsFor_embeds (adjusted : string) (item : JsFileEntry) :
  Forall (fun c => c = "" \/ includes c ("'" +:+ adjusted) = true)
    [ modernJSContent (contentsFor adjusted item);
      oldJSContent (contentsFor adjusted item);
      modernDTSContent (contentsFor adjusted item);
      dtsContent (contentsFor adjusted item) ].
Proof.
  unfold contentsFor.
  destruct (String.eqb (export_kind item) "default export").
  { four_contents; right; apply includes_spec; simpl.
    - exists ("'use client';" +:+ LFs +:+ "export { default } from "),
        (".esm';" +:+ LFs). by normalize_append.
    - exists ("'use client';" +:+ LFs +:+ "module.exports = require("),
        ("');" +:+ LFs). by normalize_append.
    - exists "export { default } from ", (".esm';" +:+ LFs).
      by normalize_append.
    - exists "export { default } from ", ("';" +:+ LFs).
      by normalize_append. }
  destruct (String.eqb (export_kind item) "named export");
    [| four_contents; by left].
  destruct (entry_point_of item) as [[|i items]|];
    [four_contents; by left | | four_contents; by left].
  set (dts := formattedEntryPointDTS (i :: items)).
  set (nonType := formattedEntryPointNonType (i :: items)).
  four_contents; right; apply includes_spec; simpl.
  - exists ("'use client';" +:+ LFs +:+ "export { " +:+ nonType +:+ " } from "),
      (".esm';" +:+ LFs). by normalize_append.
  - exists ("'use client';" +:+ LFs +:+ "const { " +:+ nonType
            +:+ " } = require("),
      ("');" +:+ LFs +:+ "module.exports = { " +:+ nonType +:+ " };").
    by normalize_append.
  - exists ("export { " +:+ dts +:+ " } from "), (".esm';" +:+ LFs).
    by normalize_append.
  - exists ("export { " +:+ dts +:+ " } from "), ("';" +:+ LFs).
    by normalize_append.
Qed.

(** C1. For an entry whose name contains [k] separators, the path
    embedded in the four stubs is the file path with [k] copies of
    "../" in front and a leading "./" removed first when [k > 0], and
    the file path itself when [k = 0]: the adjusted path of the source
    is that path, the four contents are the templates instantiated
    with it, and each content that is produced contains it right after
    an opening quote. *)
Theorem stub_path_prefixed (item : JsFileEntry) (k : nat) :
  count_char "/" (name item) = k ->
  adjustedFile (name item) (file item) = Spec.prefixedPath k (file item)
  /\ buildContents item = contentsFor (Spec.prefixedPath k (file item)) item
  /\ Forall (fun c => c = ""
               \/ includes c ("'" +:+ Spec.prefixedPath k (file item)) = true)
       [ modernJSContent (buildContents item);
         oldJSContent (buildContents item);
         modernDTSContent (buildContents item);
         dtsContent (buildContents item) ]
  /\ Spec.prefixedPath 0 (file item) = file item.
Proof.
  intros <-. unfold buildContents.
  rewrite adjustedFile_prefixedPath.
  split; [done |]. split; [done |]. split; [| done].
  apply contentsFor_embeds.
Qed.

(** *** Entries that produce nothing *)

Lemma unsupported_noContents (item : JsFileEntry) :
  unsupported item -> buildContents item = noContents.
Proof.
  unfold buildContents, contentsFor.
  intros [[Hd Hn] | [Hn Hep]].
  - apply String.eqb_neq in Hd, Hn. by rewrite Hd, Hn.
  - rewrite Hn. simpl. by destruct Hep as [-> | ->].
Qed.

Section Generator.
Variable path_join : string -> string -> string.

Lemma generateItem_unsupported (dir : string) (w : World)
  (item : JsFileEntry) :
  unsupported item ->
  generateItem path_join dir w item = log (failureLine item) w.
Proof.
  intros H. unfold generateItem.
  by rewrite (unsupported_noContents item H).
Qed.

(** An entry changes the files only through its log-free part, and
    the log only by appending. *)
Lemma generateItem_files_console (dir : string) (w w' : World)
  (item : JsFileEntry) :
  files w = files w' ->
  files (generateItem path_join dir w item)
  = files (generateItem path_join dir w' item).
Proof.
  intros H. unfold generateItem.
  destruct (incomplete (buildContents item)); simpl; by rewrite H.
Qed.

Lemma generatePublicAPI_files (dir : string) (jsFiles : list JsFileEntry)
  (w w' : World) :
  files w = files w' ->
  files (generatePublicAPI path_join dir jsFiles w)
  = files (generatePublicAPI path_join dir jsFiles w').
Proof.
  revert w w'. unfold generatePublicAPI.
  induction jsFiles as [|item jsFiles IH]; intros w w' H; [done |].
  simpl. apply IH. by apply generateItem_files_console.
Qed.

(** C3, as stated, fails for a malformed entry point that is still a
    non-empty array: with ["entry-point": [42]] the reducers skip the
    item, the four stubs are written with an empty export list and the
    success line is logged. *)
Lemma unusable_items_entry_written :
  export_kind Sample.unusableItemsEntry = "named export"
  /\ entry_point_of Sample.unusableItemsEntry = EntryPointArray [ItemOther]
  /\ console (generatePublicAPI Sample.joinLiteral "pkg"
                [Sample.unusableItemsEntry] Sample.emptyWorld)
     = ["✅ Success create hooks.js and hooks.d.ts"]
  /\ files (generatePublicAPI Sample.joinLiteral "pkg"
              [Sample.unusableItemsEntry] Sample.emptyWorld)
       !! "pkg/./hooks.esm.js"
     = Some ("'use client';" +:+ LFs
             +:+ "export {  } from './dist/hooks.esm';" +:+ LFs)
  /\ files (generatePublicAPI Sample.joinLiteral "pkg"
              [Sample.unusableItemsEntry] Sample.emptyWorld)
       !! "pkg/./hooks.d.ts"
     = Some ("export {  } from './dist/hooks';" +:+ LFs).
Proof. repeat split; vm_compute; reflexivity. Qed.

(** C3, amended. An entry whose export kind is neither "default export"
    nor "named export", or a named export whose entry point is empty or
    not an array, writes none of its four files: it leaves the files as
    they are and logs the failure line; the entries before and after it
    in the same run are processed as usual, and the files of the whole
    run are those of the run without the entry. The generator returns a
    world in every case: nothing is thrown. *)
Theorem unsupported_entry_skipped (dir : string)
  (before after : list JsFileEntry) (item : JsFileEntry) (w : World) :
  unsupported item ->
  let w1 := generatePublicAPI path_join dir before w in
  files (generateItem path_join dir w1 item) = files w1
  /\ console (generateItem path_join dir w1 item)
     = console w1 ++ [failureLine item]
  /\ generatePublicAPI path_join dir (before ++ item :: after) w
     = generatePublicAPI path_join dir after (log (failureLine item) w1)
  /\ files (generatePublicAPI path_join dir (before ++ item :: after) w)
     = files (generatePublicAPI path_join dir (before ++ after) w).
Proof.
  intros H w1. rewrite (generateItem_unsupported dir w1 item H).
  split; [done |]. split; [done |].
  assert (generatePublicAPI path_join dir (before ++ item :: after) w
          = generatePublicAPI path_join dir after
              (log (failureLine item) w1)) as Hrun.
  { unfold generatePublicAPI. rewrite foldl_app. simpl.
    fold (generatePublicAPI path_join dir before w). fold w1.
    by rewrite (generateItem_unsupported dir w1 item H). }
  split; [exact Hrun |].
  rewrite Hrun. unfold generatePublicAPI at 2. rewrite foldl_app.
  fold (generatePublicAPI path_join dir before w). fold w1.
  by apply generatePublicAPI_files.
Qed.

(** The boundary of the skip: a non-empty array is processed even if
    none of its items is usable; the four stubs are written with an
    empty export list. *)
Lemma nonempty_array_written (item : JsFileEntry) (i : entry_point_item)
  (items : list entry_point_item) :
  export_kind item = "named export" ->
  entry_point_of item = EntryPointArray (i :: items) ->
  incomplete (buildContents item) = false.
Proof.
  intros Hk He. unfold buildContents, contentsFor. rewrite Hk, He.
  reflexivity.
Qed.
End Generator.

(** *** The round-trip example *)

(** C4, as stated, fails: the ESM JS stub of the example entry is not
    the bare re-export line, it starts with the client directive. *)
Lemma esm_js_stub_not_bare :
  modernJSContent (buildContents Sample.apiEntry)
  <> "export { default } from '../../dist/a/b/api.esm';" +:+ LFs.
Proof. vm_compute. discriminate. Qed.

(** C4, amended. For the entry named "a/b/api" with file
    "./dist/a/b/api" and a default export, the ESM declaration stub
    (a/b/api.esm.d.ts) is exactly the re-export line
    "export { default } from '../../dist/a/b/api.esm';\n"; the ESM JS
    stub (a/b/api.esm.js) is that line preceded by the directive line
    "'use client';\n"; the run writes the four files and logs the
    success line. *)
Theorem api_entry_stubs (path_join : string -> string -> string)
  (dir : string) (w : World) :
  modernDTSContent (buildContents Sample.apiEntry)
  = "export { default } from '../../dist/a/b/api.esm';" +:+ LFs
  /\ modernJSContent (buildContents Sample.apiEntry)
     = "'use client';" +:+ LFs
       +:+ "export { default } from '../../dist/a/b/api.esm';" +:+ LFs
  /\ generatePublicAPI path_join dir [Sample.apiEntry] w
     = log "✅ Success create a/b/api.js and a/b/api.d.ts"
         (ensureDirAndWriteFile (path_join dir "./a/b/api.esm.d.ts")
            ("export { default } from '../../dist/a/b/api.esm';" +:+ LFs)
         (ensureDirAndWriteFile (path_join dir "./a/b/api.d.ts")
            ("export { default } from '../../dist/a/b/api';" +:+ LFs)
         (ensureDirAndWriteFile (path_join dir "./a/b/api.esm.js")
            ("'use client';" +:+ LFs
             +:+ "export { default } from '../../dist/a/b/api.esm';"
             +:+ LFs)
         (ensureDirAndWriteFile (path_join dir "./a/b/api.js")
            ("'use client';" +:+ LFs
             +:+ "module.exports = require('../../dist/a/b/api');"
             +:+ LFs) w)))).
Proof. split; [reflexivity |]. split; reflexivity. Qed.

(** *** Named exports: the two name lists *)

Lemma truthy_true (s : string) : truthy s = true <-> s <> "".
Proof.
  unfold truthy. destruct (String.eqb_spec s ""); simpl; split; congruence.
Qed.

Lemma join_cons_cons (sep x y : string) (l : list string) :
  join sep (x :: y :: l) = x +:+ sep +:+ join sep (y :: l).
Proof. reflexivity. Qed.

Lemma join_absorb (sep acc x : string) (l : list string) :
  join sep ((acc +:+ sep +:+ x) :: l) = join sep (acc :: x :: l).
Proof.
  destruct l as [|y l]; [reflexivity |].
  rewrite !join_cons_cons. by rewrite !append_assoc.
Qed.

Lemma append_nonempty_l (a b : string) : a <> "" -> a +:+ b <> "".
Proof. by destruct a. Qed.

Lemma dropEmpty_keeps (x : string) (l : list string) :
  x <> "" -> x ∈ l -> x ∈ dropEmpty l.
Proof.
  intros Hx. induction l as [|y l IH]; [done |].
  intros [->|Hin]%elem_of_cons.
  - destruct y; [done | simpl; by left].
  - destruct y; simpl; [by apply IH | by right].
Qed.

Lemma dropEmpty_within (x : string) (l : list string) :
  x ∈ dropEmpty l -> x ∈ l.
Proof.
  induction l as [|y l IH]; [done |].
  destruct y; simpl; [intros H; right; by apply IH | done].
Qed.

Section Reduce.
(** A reducer that appends the rendering of an item, when it has
    one, to the accumulated text. *)
Variable render : entry_point_item -> option string.
Variable reduce : string -> entry_point_item -> string.
Hypothesis reduce_render : forall result item,
  reduce result item
  = match render item with
    | Some x =>
        join ", " ((if truthy result then [result] else []) ++ [x])
    | None => result
    end.

Lemma omap_cons (item : entry_point_item) (items : list entry_point_item) :
  omap render (item :: items)
  = match render item with
    | Some y => y :: omap render items
    | None => omap render items
    end.
Proof. reflexivity. Qed.

Lemma foldl_reduce_from (items : list entry_point_item) (acc : string) :
  acc <> "" ->
  foldl reduce acc items = join ", " (acc :: omap render items).
Proof.
  revert acc. induction items as [|item items IH]; intros acc Hacc;
    [done |].
  cbn [foldl]. rewrite reduce_render, omap_cons.
  destruct (render item) as [x|]; [| by apply IH].
  apply truthy_true in Hacc as Ht. rewrite Ht.
  change (join ", " ([acc] ++ [x])) with (acc +:+ ", " +:+ x).
  rewrite IH by (by apply append_nonempty_l).
  apply join_absorb.
Qed.

Lemma foldl_reduce (items : list entry_point_item) :
  foldl reduce "" items = join ", " (dropEmpty (omap render items)).
Proof.
  induction items as [|item items IH]; [done |].
  cbn [foldl]. rewrite reduce_render, omap_cons.
  destruct (render item) as [[|c x]|]; [exact IH | | exact IH].
  change (join ", " ((if truthy "" then [""] else []) ++ [String c x]))
    with (String c x).
  by rewrite foldl_reduce_from.
Qed.
End Reduce.

Lemma reduceDTS_render (result : string) (item : entry_point_item) :
  reduceDTS result item
  = match declarationName item with
    | Some x => join ", " ((if truthy result then [result] else []) ++ [x])
    | None => result
    end.
Proof.
  destruct item as [s|type n|]; simpl; [done | | done].
  destruct (decide (type = "interface" /\ n <> "")) as [[-> Hn]|Hno].
  - apply truthy_true in Hn. by rewrite Hn.
  - destruct (String.eqb_spec type "interface") as [->|]; [| done].
    destruct (truthy n) eqn:Hn; [| done].
    apply truthy_true in Hn. by destruct Hno.
Qed.

Lemma reduceNonType_render (result : string) (item : entry_point_item) :
  reduceNonType result item
  = match valueName item with
    | Some x => join ", " ((if truthy result then [result] else []) ++ [x])
    | None => result
    end.
Proof. by destruct item. Qed.

Lemma formattedEntryPointDTS_join (entryPoint : list entry_point_item) :
  formattedEntryPointDTS entryPoint
  = join ", " (dropEmpty (omap declarationName entryPoint)).
Proof. apply foldl_reduce, reduceDTS_render. Qed.

Lemma formattedEntryPointNonType_join (entryPoint : list entry_point_item) :
  formattedEntryPointNonType entryPoint
  = join ", " (dropEmpty (omap valueName entryPoint)).
Proof. apply foldl_reduce, reduceNonType_render. Qed.

(** C6, as stated, fails for an interface-marked item whose name is
    empty: the guard of the reducer skips it, and the declaration stub
    of the entry has no "type " in it. *)
Lemma nameless_interface_not_rendered :
  ItemObject "interface" "" ∈ [ItemString "useThing"; ItemObject "interface" ""]
  /\ entry_point_of Sample.namelessEntry
     = EntryPointArray [ItemString "useThing"; ItemObject "interface" ""]
  /\ includes (dtsContent (buildContents Sample.namelessEntry))
       ("type " +:+ "") = false
  /\ includes (modernDTSContent (buildContents Sample.namelessEntry))
       ("type " +:+ "") = false.
Proof.
  split; [set_solver |]. split; [reflexivity |]. split; vm_compute; reflexivity.
Qed.

(** C6, amended. For a named export whose entry point contains an
    interface-marked item with a non-empty name, both declaration stubs
    carry the comma-joined declaration list, which has "type <name>"
    for that item, and both JS stubs carry the comma-joined value list,
    every name of which is a plain string item of the entry point;
    non-empty plain string items are in both lists unchanged. *)
Theorem interface_items_in_declarations_only (item : JsFileEntry)
  (items : list entry_point_item) (n : string) :
  export_kind item = "named export" ->
  entry_point_of item = EntryPointArray items ->
  ItemObject "interface" n ∈ items ->
  n <> "" ->
  let declarations := dropEmpty (omap declarationName items) in
  let values := dropEmpty (omap valueName items) in
  let adjusted := adjustedFile (name item) (file item) in
  dtsContent (buildContents item)
  = "export { " +:+ join ", " declarations +:+ " } from '" +:+ adjusted
      +:+ "';" +:+ LFs
  /\ modernDTSContent (buildContents item)
     = "export { " +:+ join ", " declarations +:+ " } from '" +:+ adjusted
         +:+ ".esm';" +:+ LFs
  /\ modernJSContent (buildContents item)
     = "'use client';" +:+ LFs +:+ "export { " +:+ join ", " values
         +:+ " } from '" +:+ adjusted +:+ ".esm';" +:+ LFs
  /\ oldJSContent (buildContents item)
     = join LFs
         [ "'use client';";
           "const { " +:+ join ", " values +:+ " } = require('" +:+ adjusted
             +:+ "');";
           "module.exports = { " +:+ join ", " values +:+ " };" ]
  /\ ("type " +:+ n) ∈ declarations
  /\ Forall (fun x => ItemString x ∈ items) values
  /\ Forall (fun i => match i with
                      | ItemString (String c s) =>
                          String c s ∈ declarations /\ String c s ∈ values
                      | _ => True
                      end) items.
Proof.
  intros Hk He Hin Hn declarations values adjusted.
  unfold buildContents, contentsFor. rewrite Hk, He. simpl.
  destruct items as [|i items]; [by apply elem_of_nil in Hin |].
  rewrite formattedEntryPointDTS_join, formattedEntryPointNonType_join.
  fold declarations values adjusted. simpl.
  repeat (split; [reflexivity |]).
  split; [| split].
  - apply dropEmpty_keeps; [done |].
    apply list_elem_of_omap. exists (ItemObject "interface" n).
    split; [done |]. simpl. by rewrite decide_True.
  - apply Forall_forall. intros x Hx%dropEmpty_within.
    apply list_elem_of_omap in Hx as [[s|t m|] [Hy Hs]]; simpl in Hs;
      [| done | done].
    by injection Hs as ->.
  - apply Forall_forall. intros [[|c s]|t m|] Hi; try done.
    split; (apply dropEmpty_keeps; [done |]); apply list_elem_of_omap;
      by exists (ItemString (String c s)).
Qed.

(** *** Running the generator again *)

Section Rerun.
Variable path_join : string -> string -> string.

Lemma files_generateItem (dir : string) (w : World) (item : JsFileEntry) :
  files (generateItem path_join dir w item)
  = putAll insert (files w) (stubWrites path_join dir item).
Proof.
  unfold generateItem, stubWrites.
  by destruct (incomplete (buildContents item)).
Qed.

Lemma files_generatePublicAPI (dir : string) (jsFiles : list JsFileEntry)
  (w : World) :
  files (generatePublicAPI path_join dir jsFiles w)
  = putAll insert (files w) (flat_map (stubWrites path_join dir) jsFiles).
Proof.
  revert w. unfold generatePublicAPI.
  induction jsFiles as [|item jsFiles IH]; intros w; [done |].
  cbn [foldl flat_map]. rewrite IH, files_generateItem.
  unfold putAll. by rewrite foldl_app.
Qed.

(** A second run over the same entries leaves every file as the
    first run wrote it. *)
Lemma generatePublicAPI_rerun (dir : string) (jsFiles : list JsFileEntry)
  (w : World) :
  files (generatePublicAPI path_join dir jsFiles
           (generatePublicAPI path_join dir jsFiles w))
  = files (generatePublicAPI path_join dir jsFiles w).
Proof.
  rewrite (files_generatePublicAPI dir jsFiles (generatePublicAPI _ _ _ w)).
  rewrite files_generatePublicAPI. apply WriteFacts.insertAll_twice.
Qed.
End Rerun.

(** *** Instances *)

Lemma stub_path_prefixed_witness :
  count_char "/" (name Sample.apiEntry) = 2
  /\ adjustedFile (name Sample.apiEntry) (file Sample.apiEntry)
     = "../../dist/a/b/api".
Proof.
  split; [reflexivity |].
  exact (proj1 (stub_path_prefixed Sample.apiEntry 2 eq_refl)).
Defined.

Lemma unsupported_entry_skipped_witness :
  unsupported Sample.unknownKindEntry
  /\ files (generatePublicAPI Sample.joinLiteral "pkg"
              ([Sample.apiEntry] ++ Sample.unknownKindEntry
                                    :: [Sample.plainEntry])
              Sample.emptyWorld)
     = files (generatePublicAPI Sample.joinLiteral "pkg"
                ([Sample.apiEntry] ++ [Sample.plainEntry])
                Sample.emptyWorld).
Proof.
  assert (unsupported Sample.unknownKindEntry) as H
    by (left; split; discriminate).
  split; [exact H |].
  exact (proj2 (proj2 (proj2
           (unsupported_entry_skipped Sample.joinLiteral "pkg"
              [Sample.apiEntry] [Sample.plainEntry]
              Sample.unknownKindEntry Sample.emptyWorld H)))).
Defined.

Lemma interface_items_in_declarations_only_witness :
  export_kind Sample.hooksEntry = "named export"
  /\ entry_point_of Sample.hooksEntry
     = EntryPointArray
         [ItemString "useThing"; ItemObject "interface" "ThingProps"]
  /\ ItemObject "interface" "ThingProps"
     ∈ [ItemString "useThing"; ItemObject "interface" "ThingProps"]
  /\ "ThingProps" <> ""
  /\ dtsContent (buildContents Sample.hooksEntry)
     = "export { useThing, type ThingProps } from './dist/hooks';" +:+ LFs
  /\ modernJSContent (buildContents Sample.hooksEntry)
     = "'use client';" +:+ LFs
       +:+ "export { useThing } from './dist/hooks.esm';" +:+ LFs.
Proof.
  assert (ItemObject "interface" "ThingProps"
          ∈ [ItemString "useThing"; ItemObject "interface" "ThingProps"])
    as Hin by (right; left).
  assert ("ThingProps" <> "") as Hn by discriminate.
  split; [reflexivity |]. split; [reflexivity |].
  split; [exact Hin |]. split; [exact Hn |].
  destruct (interface_items_in_declarations_only Sample.hooksEntry _
              "ThingProps" eq_refl eq_refl Hin Hn)
    as (Hdts & _ & Hjs & _).
  split; [exact Hdts | exact Hjs].
Defined.

End PostBuildFacts.

(** ** The ignore file and the package metadata *)

Module SyncFileFacts.
Import JsString Descriptor Js SyncFile Spec JsStringFacts.

(** *** The filter over the lines of the ignore file *)

Lemma markerFree_spec (line : string) :
  markerFree line = true
  <-> includes line GIT_IGNORE_START_LINE = false
      /\ includes line GIT_IGNORE_END_LINE = false.
Proof.
  unfold markerFree. rewrite andb_true_iff, !negb_true_iff. done.
Qed.

Lemma filterLines_markerFree (b : bool) (lines : list string) :
  Forall (fun line => markerFree line = true) (filterLines b lines).
Proof.
  revert b. induction lines as [|line lines IH]; intros b; simpl;
    [constructor |].
  destruct (includes line GIT_IGNORE_START_LINE) eqn:Hs; [apply IH |].
  destruct (includes line GIT_IGNORE_END_LINE) eqn:He; [apply IH |].
  destruct b; [apply IH |]. constructor; [| apply IH].
  by apply markerFree_spec.
Qed.

Lemma filterLines_within (b : bool) (lines : list string) (x : string) :
  x ∈ filterLines b lines -> x ∈ lines.
Proof.
  revert b. induction lines as [|line lines IH]; intros b; simpl; [done |].
  destruct (includes line GIT_IGNORE_START_LINE);
    [intros H; right; by eapply IH |].
  destruct (includes line GIT_IGNORE_END_LINE);
    [intros H; right; by eapply IH |].
  destruct b; [intros H; right; by eapply IH |].
  intros [->|H]%elem_of_cons; [by left | right; by eapply IH].
Qed.

(** Lines without markers outside a block are all kept. *)
Lemma filterLines_free_app (kept rest : list string) :
  Forall (fun line => markerFree line = true) kept ->
  filterLines false (kept ++ rest) = kept ++ filterLines false rest.
Proof.
  induction 1 as [|line kept Hline _ IH]; simpl; [done |].
  apply markerFree_spec in Hline as [-> ->]. by rewrite IH.
Qed.

(** What the filter keeps of a prefix does not depend on what
    follows. *)
Lemma filterLines_app (b : bool) (first rest : list string) :
  exists b', filterLines b (first ++ rest)
             = filterLines b first ++ filterLines b' rest.
Proof.
  revert b. induction first as [|line first IH]; intros b; simpl.
  - by exists b.
  - destruct (includes line GIT_IGNORE_START_LINE); [apply IH |].
    destruct (includes line GIT_IGNORE_END_LINE); [apply IH |].
    destruct b; [apply IH |].
    destruct (IH false) as [b' ->]. by exists b'.
Qed.

(** Inside a block every line is dropped until an end marker. *)
Lemma filterLines_inside (lines rest : list string) :
  Forall (fun line => includes line GIT_IGNORE_END_LINE = false) lines ->
  filterLines true (lines ++ rest) = filterLines true rest.
Proof.
  induction 1 as [|line lines Hline _ IH]; simpl; [done |].
  rewrite Hline. by destruct (includes line GIT_IGNORE_START_LINE).
Qed.

Lemma filterLines_start (b : bool) (line : string) (lines : list string) :
  includes line GIT_IGNORE_START_LINE = true ->
  filterLines b (line :: lines) = filterLines true lines.
Proof. intros H. simpl. by rewrite H. Qed.

(** *** The rewritten ignore file *)

Lemma foldl_pushNames (acc : list string) (jsFiles : list JsFileEntry) :
  foldl pushNames acc jsFiles = acc ++ generatedBlock jsFiles.
Proof.
  revert acc. induction jsFiles as [|item jsFiles IH]; intros acc.
  - simpl. by rewrite List.app_nil_r.
  - cbn [foldl]. rewrite IH. unfold pushNames, generatedBlock.
    cbn [flat_map]. by rewrite <- List.app_assoc.
Qed.

Lemma registerGITIgnoreFiles_lines (jsFiles : list JsFileEntry)
  (content : string) :
  registerGITIgnoreFiles (Some jsFiles) content
  = Returned (join LFs (filterLines false (split LF content)
                        ++ GIT_IGNORE_START_LINE
                           :: generatedBlock jsFiles
                           ++ [GIT_IGNORE_END_LINE])).
Proof.
  unfold registerGITIgnoreFiles, forEach. cbn [mbind outcome_bind].
  rewrite foldl_pushNames. do 2 f_equal.
  rewrite <- !List.app_assoc. done.
Qed.

Lemma flat_map_split_free (lines : list string) :
  Forall (fun line => count_char LF line = 0) lines ->
  flat_map (split LF) lines = lines.
Proof.
  induction 1 as [|line lines Hline _ IH]; [done |].
  cbn [flat_map]. by rewrite IH, split_free.
Qed.

Lemma filterLines_end (b : bool) (line : string) (lines : list string) :
  includes line GIT_IGNORE_START_LINE = false ->
  includes line GIT_IGNORE_END_LINE = true ->
  filterLines b (line :: lines) = filterLines false lines.
Proof. intros Hs He. simpl. by rewrite Hs, He. Qed.

(** From a start marker on, with no end marker after it, nothing is
    kept. *)
Lemma filterLines_open_block (before after : list string) (line : string) :
  includes line GIT_IGNORE_START_LINE = true ->
  Forall (fun l => includes l GIT_IGNORE_END_LINE = false) after ->
  filterLines false (before ++ line :: after) = filterLines false before.
Proof.
  intros Hs Hafter.
  destruct (filterLines_app false before (line :: after)) as [b' ->].
  rewrite (filterLines_start b' line after Hs).
  rewrite <- (List.app_nil_r after), (filterLines_inside after [] Hafter).
  simpl. by rewrite List.app_nil_r.
Qed.

(** C10. Marker lines are recognised by containment: no line that
    contains the start or the end marker text is ever kept, a line that
    contains the end marker text closes the block and a line that
    contains the start marker text opens one. For an ignore file with a
    line containing the start marker and no line containing the end
    marker after it, every line after that line is dropped from the
    preserved content, and the fresh block is appended at the end of
    what is preserved of the lines before it. *)
Theorem markers_by_containment (jsFiles : list JsFileEntry)
  (before after : list string) (line : string) :
  Forall (fun l => count_char LF l = 0) (before ++ line :: after) ->
  includes line GIT_IGNORE_START_LINE = true ->
  Forall (fun l => includes l GIT_IGNORE_END_LINE = false) after ->
  (forall b lines,
      Forall (fun l => includes l GIT_IGNORE_START_LINE = false
                       /\ includes l GIT_IGNORE_END_LINE = false)
        (filterLines b lines))
  /\ (forall b l lines,
        includes l GIT_IGNORE_START_LINE = false ->
        includes l GIT_IGNORE_END_LINE = true ->
        filterLines b (l :: lines) = filterLines false lines)
  /\ (forall b lines, filterLines b (line :: lines) = filterLines true lines)
  /\ filterLines false (before ++ line :: after) = filterLines false before
  /\ registerGITIgnoreFiles (Some jsFiles)
       (join LFs (before ++ line :: after))
     = Returned (join LFs (filterLines false before
                           ++ GIT_IGNORE_START_LINE
                              :: generatedBlock jsFiles
                              ++ [GIT_IGNORE_END_LINE])).
Proof.
  intros Hfree Hs Hafter. split; [| split; [| split; [| split]]].
  - intros b lines. eapply Forall_impl; [apply filterLines_markerFree |].
    intros l Hl. by apply markerFree_spec.
  - apply filterLines_end.
  - intros b lines. by apply filterLines_start.
  - by apply filterLines_open_block.
  - rewrite registerGITIgnoreFiles_lines. unfold LFs.
    rewrite split_join by (by destruct before).
    rewrite (flat_map_split_free _ Hfree).
    by rewrite filterLines_open_block.
Qed.

(** *** Running the synchronizer again *)

Lemma countMarker_app (marker : string) (l1 l2 : list string) :
  countMarker marker (l1 ++ l2)
  = countMarker marker l1 + countMarker marker l2.
Proof. unfold countMarker. by rewrite filter_app, length_app. Qed.

Lemma countMarker_free (marker : string) (lines : list string) :
  Forall (fun l => includes l marker = false) lines ->
  countMarker marker lines = 0.
Proof.
  unfold countMarker. induction 1 as [|l lines Hl _ IH]; [done |].
  rewrite filter_cons_False; [done | congruence].
Qed.

Lemma countMarker_cons (marker l : string) (lines : list string) :
  countMarker marker (l :: lines)
  = (if includes l marker then 1 else 0) + countMarker marker lines.
Proof.
  unfold countMarker. destruct (includes l marker) eqn:E.
  - by rewrite filter_cons_True.
  - rewrite filter_cons_False; [done | congruence].
Qed.

(** The pieces of marker-free lines are marker-free. *)
Lemma split_markerFree (lines : list string) :
  Forall (fun l => markerFree l = true) lines ->
  Forall (fun l => markerFree l = true) (flat_map (split LF) lines).
Proof.
  intros H. apply Forall_flat_map.
  eapply List.Forall_impl; [| exact H].
  intros g [Hs He]%markerFree_spec. apply Forall_forall. intros x Hx.
  destruct (split_piece_within LF g x Hx) as [a [b ->]].
  apply markerFree_spec. split.
  - destruct (includes x GIT_IGNORE_START_LINE) eqn:E; [| done].
    by rewrite (includes_within a x b _ E) in Hs.
  - destruct (includes x GIT_IGNORE_END_LINE) eqn:E; [| done].
    by rewrite (includes_within a x b _ E) in He.
Qed.

Lemma markerFree_no_marker (lines : list string) :
  Forall (fun l => markerFree l = true) lines ->
  Forall (fun l => includes l GIT_IGNORE_START_LINE = false) lines
  /\ Forall (fun l => includes l GIT_IGNORE_END_LINE = false) lines.
Proof.
  intros H. split; (eapply List.Forall_impl; [| exact H]);
    by intros l [? ?]%markerFree_spec.
Qed.

(** The lines of the rewritten file: what was kept, then the block. *)
Lemma rewritten_lines (kept block : list string) :
  Forall (fun l => count_char LF l = 0) kept ->
  split LF (join LFs (kept ++ GIT_IGNORE_START_LINE
                             :: block ++ [GIT_IGNORE_END_LINE]))
  = kept ++ GIT_IGNORE_START_LINE
            :: flat_map (split LF) block ++ [GIT_IGNORE_END_LINE].
Proof.
  intros Hkept. unfold LFs. rewrite split_join by (by destruct kept).
  rewrite flat_map_app. cbn [flat_map]. rewrite flat_map_app.
  by rewrite (flat_map_split_free _ Hkept).
Qed.

Lemma kept_lines_free (content : string) :
  Forall (fun l => count_char LF l = 0)
    (filterLines false (split LF content)).
Proof.
  apply Forall_forall. intros x Hx%filterLines_within.
  pose proof (split_pieces_free LF content) as H.
  rewrite Forall_forall in H. by apply H.
Qed.

(** Filtering the rewritten file gives back the kept lines. *)
Lemma filterLines_rewritten (kept block : list string) :
  Forall (fun l => markerFree l = true) kept ->
  Forall (fun l => includes l GIT_IGNORE_END_LINE = false) block ->
  filterLines false (kept ++ GIT_IGNORE_START_LINE
                            :: block ++ [GIT_IGNORE_END_LINE])
  = kept.
Proof.
  intros Hkept Hblock. rewrite (filterLines_free_app _ _ Hkept).
  rewrite (filterLines_start false GIT_IGNORE_START_LINE) by reflexivity.
  rewrite (filterLines_inside _ _ Hblock).
  change (filterLines true [GIT_IGNORE_END_LINE]) with (@nil string).
  apply List.app_nil_r.
Qed.

(** C5, as stated, fails: with an entry named like the end marker
    followed by another entry, the second run keeps the names of the
    second entry outside the block, so the two runs differ. *)
Lemma marker_named_entry_not_idempotent :
  exists once twice,
    registerGITIgnoreFiles (Some [Sample.markerEntry; Sample.plainEntry]) ""
    = Returned once
    /\ registerGITIgnoreFiles
         (Some [Sample.markerEntry; Sample.plainEntry]) once
       = Returned twice
    /\ once <> twice.
Proof.
  eexists _, _. split; [vm_compute; reflexivity |].
  split; [vm_compute; reflexivity |]. discriminate.
Qed.

(** C5, amended. Provided no generated file name contains the text of
    the start or end marker, running the tool twice on the same
    descriptor is idempotent: the second run of the generator leaves
    every stub file as the first run wrote it; the second rewrite of
    the ignore file returns the content of the first, whose lines are
    the preserved lines followed by one block, with exactly one line
    containing the start marker and one containing the end marker; the
    preserved lines are those of the original file. *)
Theorem rerun_idempotent (path_join : string -> string -> string)
  (dir : string) (jsFiles : list JsFileEntry) (w : PostBuild.World)
  (content : string) :
  Forall (fun g => markerFree g = true) (generatedBlock jsFiles) ->
  PostBuild.files
    (PostBuild.generatePublicAPI path_join dir jsFiles
       (PostBuild.generatePublicAPI path_join dir jsFiles w))
  = PostBuild.files (PostBuild.generatePublicAPI path_join dir jsFiles w)
  /\ exists once,
       registerGITIgnoreFiles (Some jsFiles) content = Returned once
       /\ registerGITIgnoreFiles (Some jsFiles) once = Returned once
       /\ split LF once
          = filterLines false (split LF content)
            ++ GIT_IGNORE_START_LINE
               :: flat_map (split LF) (generatedBlock jsFiles)
               ++ [GIT_IGNORE_END_LINE]
       /\ countMarker GIT_IGNORE_START_LINE (split LF once) = 1
       /\ countMarker GIT_IGNORE_END_LINE (split LF once) = 1
       /\ filterLines false (split LF once)
          = filterLines false (split LF content).
Proof.
  intros Hblock. split; [apply PostBuildFacts.generatePublicAPI_rerun |].
  set (kept := filterLines false (split LF content)).
  set (block := generatedBlock jsFiles) in *.
  assert (Forall (fun l => markerFree l = true) kept) as Hkept
    by apply filterLines_markerFree.
  pose proof (rewritten_lines kept block (kept_lines_free content)) as Hlines.
  pose proof (split_markerFree block Hblock) as Hpieces.
  destruct (markerFree_no_marker _ Hpieces) as [Hps Hpe].
  destruct (markerFree_no_marker _ Hkept) as [Hks Hke].
  assert (filterLines false
            (split LF (join LFs (kept ++ GIT_IGNORE_START_LINE
                                       :: block ++ [GIT_IGNORE_END_LINE])))
          = kept) as Hagain.
  { rewrite Hlines. by apply filterLines_rewritten. }
  eexists. split; [apply registerGITIgnoreFiles_lines |].
  fold kept block. split; [| split; [exact Hlines | split; [| split]]].
  - rewrite registerGITIgnoreFiles_lines. fold block. by rewrite Hagain.
  - rewrite Hlines, countMarker_app, countMarker_cons, countMarker_app.
    rewrite (countMarker_free _ _ Hks), (countMarker_free _ _ Hps).
    reflexivity.
  - rewrite Hlines, countMarker_app, countMarker_cons, countMarker_app.
    rewrite (countMarker_free _ _ Hke), (countMarker_free _ _ Hpe).
    reflexivity.
  - exact Hagain.
Qed.

(** *** The rewritten package metadata *)

Lemma foldl_applyCustomConfig (customConfig : list CustomConfigEntry)
  (st : Exposed) :
  foldl applyCustomConfig st customConfig
  = (st.1 ++ flat_map files_config customConfig,
     putAll assign st.2 (customWrites customConfig)).
Proof.
  revert st. induction customConfig as [|item l IH]; intros [f e].
  - simpl. by rewrite List.app_nil_r.
  - cbn [foldl]. rewrite IH. unfold applyCustomConfig. cbn [fst snd flat_map].
    by rewrite <- List.app_assoc.
Qed.

Lemma foldl_applyStaticFile (staticFiles : list StaticFileEntry)
  (st : Exposed) :
  foldl applyStaticFile st staticFiles
  = (st.1, putAll assign st.2 (staticWrites staticFiles)).
Proof.
  revert st. induction staticFiles as [|item l IH]; intros [f e]; [done |].
  cbn [foldl]. by rewrite IH.
Qed.

Lemma foldl_applyJsFile (jsFiles : list JsFileEntry) (st : Exposed) :
  foldl applyJsFile st jsFiles
  = (st.1 ++ generatedBlock jsFiles,
     putAll assign st.2 (jsWrites (name <$> jsFiles))).
Proof.
  revert st. induction jsFiles as [|item l IH]; intros [f e].
  - simpl. by rewrite List.app_nil_r.
  - cbn [foldl]. rewrite IH. unfold applyJsFile, generatedBlock.
    cbn [fst snd flat_map]. by rewrite <- List.app_assoc.
Qed.

(** The object written back: the input with [files] and [exports]
    stored over it. *)
Lemma registerExposedFiles_content (customConfig : list CustomConfigEntry)
  (jsFiles : list JsFileEntry) (staticFiles : list StaticFileEntry)
  (pkg : gmap string json) :
  registerExposedFiles (Some customConfig) (Some jsFiles) (Some staticFiles)
    pkg
  = Returned
      (<["exports" :=
           JObj (putAll assign ∅
                   (exportWrites customConfig staticFiles jsFiles))]>
       (<["files" := JArr (JStr <$> exposedFiles customConfig jsFiles)]>
        pkg)).
Proof.
  unfold registerExposedFiles, forEach. cbn [mbind outcome_bind].
  rewrite foldl_applyCustomConfig, foldl_applyStaticFile, foldl_applyJsFile.
  cbn [fst snd]. unfold exportWrites, exposedFiles.
  rewrite !WriteFacts.putAll_app. by rewrite <- List.app_assoc.
Qed.

Lemma lastWrite_app {V} (key : string) (w1 w2 : list (string * V)) :
  lastWrite key (w1 ++ w2)
  = match lastWrite key w2 with
    | Some v => Some v
    | None => lastWrite key w1
    end.
Proof.
  induction w1 as [|[k v] w1 IH]; simpl.
  - by destruct (lastWrite key w2).
  - rewrite IH. by destruct (lastWrite key w2).
Qed.

Lemma dot_slash_not_proto (n : string) : "./" +:+ n <> "__proto__".
Proof. discriminate. Qed.

Lemma append_length (a b : string) :
  String.length (a +:+ b) = String.length a + String.length b.
Proof.
  induction a as [|c a IH]; [done |].
  change (String c a +:+ b) with (String c (a +:+ b)).
  cbn [String.length]. by rewrite IH.
Qed.

Lemma append_inj_r (a b s : string) : a +:+ s = b +:+ s -> a = b.
Proof.
  revert b. induction a as [|c a IH]; intros [|d b] H.
  - done.
  - apply (f_equal String.length) in H.
    change (String d b +:+ s) with (String d (b +:+ s)) in H.
    change ("" +:+ s) with s in H.
    cbn [String.length] in H. rewrite append_length in H. lia.
  - apply (f_equal String.length) in H.
    change (String c a +:+ s) with (String c (a +:+ s)) in H.
    change ("" +:+ s) with s in H.
    cbn [String.length] in H. rewrite append_length in H. lia.
  - change (String c a +:+ s) with (String c (a +:+ s)) in H.
    change (String d b +:+ s) with (String d (b +:+ s)) in H.
    injection H as -> H. f_equal. by apply IH.
Qed.

Lemma esm_key_inj (m n : string) : "./" +:+ m = "./" +:+ n -> m = n.
Proof.
  intros H.
  change (String "." (String "/" m) = String "." (String "/" n)) in H.
  by injection H.
Qed.




Lemma exports_lookup (customConfig : list CustomConfigEntry)
  (staticFiles : list StaticFileEntry) (jsFiles : list JsFileEntry)
  (key : string) :
  key <> "__proto__" ->
  putAll assign ∅ (exportWrites customConfig staticFiles jsFiles) !! key
  = lastWrite key (exportWrites customConfig staticFiles jsFiles).
Proof.
  intros Hkey.
  rewrite (WriteFacts.putAll_lookup assign (fun k => k <> "__proto__")
             (fun k v m key' => WriteFacts.assign_lookup_decide k v m key'))
    by done.
  by destruct (lastWrite key _).
Qed.





(** C8. Every top-level field of the package metadata other than
    [files] and [exports] is the same in the rewritten object as in the
    input; [files] and [exports] are present in the output and do not
    depend on the input object. *)
Theorem other_fields_unchanged (customConfig : list CustomConfigEntry)
  (staticFiles : list StaticFileEntry) (jsFiles : list JsFileEntry)
  (pkg pkg' : gmap string json) (key : string) :
  key <> "files" ->
  key <> "exports" ->
  exists out out',
    registerExposedFiles (Some customConfig) (Some jsFiles)
      (Some staticFiles) pkg = Returned out
    /\ registerExposedFiles (Some customConfig) (Some jsFiles)
         (Some staticFiles) pkg' = Returned out'
    /\ out !! key = pkg !! key
    /\ is_Some (out !! "files")
    /\ is_Some (out !! "exports")
    /\ out !! "files" = out' !! "files"
    /\ out !! "exports" = out' !! "exports".
Proof.
  intros Hf He.
  eexists _, _. split; [apply registerExposedFiles_content |].
  split; [apply registerExposedFiles_content |].
  split; [by rewrite !lookup_insert_ne |].
  rewrite !lookup_insert_eq.
  rewrite !(lookup_insert_ne _ "exports" "files") by done.
  rewrite !lookup_insert_eq. by repeat split.
Qed.

(** *** Absent descriptor fields *)


(** *** Instances *)

Lemma markers_by_containment_witness :
  Forall (fun l => count_char LF l = 0)
    (["node_modules"] ++ "# ### Start Generated Section (old)"
                         :: ["stale.js"])
  /\ includes "# ### Start Generated Section (old)" GIT_IGNORE_START_LINE
     = true
  /\ Forall (fun l => includes l GIT_IGNORE_END_LINE = false) ["stale.js"]
  /\ filterLines false
       (["node_modules"] ++ "# ### Start Generated Section (old)"
                            :: ["stale.js"])
     = filterLines false ["node_modules"].
Proof.
  assert (Forall (fun l => count_char LF l = 0)
            (["node_modules"] ++ "# ### Start Generated Section (old)"
                                 :: ["stale.js"])) as Hfree
    by (repeat constructor).
  assert (Forall (fun l => includes l GIT_IGNORE_END_LINE = false)
            ["stale.js"]) as Hafter by (repeat constructor).
  split; [exact Hfree |]. split; [reflexivity |]. split; [exact Hafter |].
  exact (proj1 (proj2 (proj2 (proj2
           (markers_by_containment [Sample.plainEntry] ["node_modules"]
              ["stale.js"] "# ### Start Generated Section (old)"
              Hfree eq_refl Hafter))))).
Defined.

Lemma rerun_idempotent_witness :
  Forall (fun g => markerFree g = true) (generatedBlock [Sample.apiEntry])
  /\ exists once,
       registerGITIgnoreFiles (Some [Sample.apiEntry]) "node_modules"
       = Returned once
       /\ registerGITIgnoreFiles (Some [Sample.apiEntry]) once
          = Returned once.
Proof.
  assert (Forall (fun g => markerFree g = true)
            (generatedBlock [Sample.apiEntry])) as Hblock
    by (repeat constructor).
  split; [exact Hblock |].
  destruct (rerun_idempotent Sample.joinLiteral "pkg" [Sample.apiEntry]
              Sample.emptyWorld "node_modules" Hblock)
    as (_ & once & Hfirst & Hsecond & _).
  exists once. split; [exact Hfirst | exact Hsecond].
Defined.


Lemma other_fields_unchanged_witness :
  "name" <> "files"
  /\ "name" <> "exports"
  /\ exists out,
       registerExposedFiles (Some []) (Some [Sample.buttonEntry]) (Some [])
         {["name" := JStr "@scope/pkg"]} = Returned out
       /\ out !! "name"
          = ({["name" := JStr "@scope/pkg"]} : gmap string json) !! "name".
Proof.
  assert ("name" <> "files") as Hf by discriminate.
  assert ("name" <> "exports") as He by discriminate.
  split; [exact Hf |]. split; [exact He |].
  destruct (other_fields_unchanged [] [] [Sample.buttonEntry]
              {["name" := JStr "@scope/pkg"]} ∅ "name" Hf He)
    as (out & out' & Hout & _ & Hkey & _).
  exists out. split; [exact Hout | exact Hkey].
Defined.

End SyncFileFacts.

(** ** The command line *)

Module CliFacts.
Import JsString Js Cli JsStringFacts.

(** A key the result owns keeps its value. *)
Lemma step_owned (result : gmap string (option string))
  (current key : string) (v : option string) :
  result !! key = Some v -> step result current !! key = Some v.
Proof.
  intros Hkey. unfold step. destruct (keyValue current) as [k value].
  destruct (result !! k) eqn:Hk; [done |].
  unfold assign. destruct (String.eqb k "__proto__"); [done |].
  rewrite lookup_insert_ne; [done | congruence].
Qed.

Lemma foldl_step_owned (argv : list string)
  (result : gmap string (option string)) (key : string)
  (v : option string) :
  result !! key = Some v -> foldl step result argv !! key = Some v.
Proof.
  revert result. induction argv as [|current argv IH]; intros result H;
    [done |].
  cbn [foldl]. apply IH. by apply step_owned.
Qed.

(** An argument with another key leaves the key alone. *)
Lemma step_other (result : gmap string (option string))
  (current key : string) :
  (keyValue current).1 <> key -> step result current !! key = result !! key.
Proof.
  unfold step. destruct (keyValue current) as [k value]. simpl. intros Hne.
  destruct (result !! k); [done |].
  unfold assign. destruct (String.eqb k "__proto__"); [done |].
  by rewrite lookup_insert_ne.
Qed.

Lemma foldl_step_other (argv : list string)
  (result : gmap string (option string)) (key : string) :
  Forall (fun a => (keyValue a).1 <> key) argv ->
  foldl step result argv !! key = result !! key.
Proof.
  intros H. revert result.
  induction H as [|current argv Hcur _ IH]; intros result; [done |].
  cbn [foldl]. rewrite IH. by apply step_other.
Qed.

(** The first argument with a key stores its value. *)
Lemma step_first (result : gmap string (option string))
  (current key : string) :
  key <> "__proto__" ->
  (keyValue current).1 = key ->
  result !! key = None ->
  step result current !! key = Some (keyValue current).2.
Proof.
  unfold step. destruct (keyValue current) as [k value]. simpl.
  intros Hproto -> Hnone. rewrite Hnone. unfold assign.
  apply String.eqb_neq in Hproto. rewrite Hproto.
  apply lookup_insert_eq.
Qed.

Lemma flag_not_proto (key : string) :
  startsWith key "--" = true -> key <> "__proto__".
Proof. intros [q ->]%prefix_spec. discriminate. Qed.

(** C9. When a "--flag" key occurs several times, the parsed map holds
    the value of its first occurrence, whatever follows; with several
    "--file-name" arguments the package name is the value of the
    first. *)
Theorem first_occurrence_wins (before after : list string)
  (current key : string) :
  startsWith key "--" = true ->
  (keyValue current).1 = key ->
  Forall (fun a => (keyValue a).1 <> key) before ->
  argument (before ++ current :: after) !! key
  = Some (keyValue current).2
  /\ (key = "--file-name" ->
      forall v, (keyValue current).2 = Some v -> truthy v = true ->
      packageName (before ++ current :: after) = Some v).
Proof.
  intros Hflag Hkey Hbefore.
  assert (argument (before ++ current :: after) !! key
          = Some (keyValue current).2) as Hfirst.
  { unfold argument. rewrite foldl_app. cbn [foldl].
    apply foldl_step_owned, step_first; [by apply flag_not_proto | done |].
    by rewrite foldl_step_other. }
  split; [exact Hfirst |].
  intros -> v Hv Ht. unfold packageName. by rewrite Hfirst, Hv, Ht.
Qed.

Lemma first_occurrence_wins_witness :
  startsWith "--file-name" "--" = true
  /\ (keyValue "--file-name=first").1 = "--file-name"
  /\ Forall (fun a => (keyValue a).1 <> "--file-name") []
  /\ packageName ([] ++ "--file-name=first" :: ["--file-name=second"])
     = Some "first".
Proof.
  split; [reflexivity |]. split; [reflexivity |]. split; [constructor |].
  exact (proj2 (first_occurrence_wins [] ["--file-name=second"]
                  "--file-name=first" "--file-name"
                  eq_refl eq_refl (Forall_nil_2 _))
           eq_refl "first" eq_refl eq_refl).
Defined.

End CliFacts.

(** * Further properties *)

(** ** The command line: keys, values and absent flags *)

Module ArgumentFacts.
Import JsString Js Cli JsStringFacts CliFacts.

Lemma step_absent_iff (result : gmap string (option string))
  (current key : string) :
  key <> "__proto__" ->
  step result current !! key = None
  <-> result !! key = None /\ (keyValue current).1 <> key.
Proof.
  intros Hproto. unfold step. destruct (keyValue current) as [k v].
  cbn [fst]. destruct (result !! k) eqn:Hk.
  - split; [| tauto]. intros H. split; [done | congruence].
  - unfold assign. destruct (String.eqb_spec k "__proto__") as [->|Hne].
    + split; [| tauto]. intros H. split; [done | congruence].
    + rewrite lookup_insert. destruct (decide (k = key)) as [->|Hkey].
      * split; [done | tauto].
      * tauto.
Qed.

Lemma foldl_step_absent_iff (argv : list string)
  (result : gmap string (option string)) (key : string) :
  key <> "__proto__" ->
  foldl step result argv !! key = None
  <-> result !! key = None /\ Forall (fun a => (keyValue a).1 <> key) argv.
Proof.
  intros Hproto. revert result.
  induction argv as [|current argv IH]; intros result; cbn [foldl].
  - split; [intros H; split; [done | constructor] | tauto].
  - rewrite IH, step_absent_iff, Forall_cons by done. tauto.
Qed.

(** X1. The parsed map owns a key exactly when some argument has it:
    a key other than "__proto__" is absent from [argument] if and only
    if no argument splits to that key. *)
Theorem argument_absent_iff (argv : list string) (key : string) :
  key <> "__proto__" ->
  argument argv !! key = None
  <-> Forall (fun a => (keyValue a).1 <> key) argv.
Proof.
  intros Hproto. unfold argument.
  rewrite foldl_step_absent_iff by done. rewrite lookup_empty. tauto.
Qed.

Lemma argument_absent_iff_witness :
  "--file-name" <> "__proto__"
  /\ (argument ["--verbose"; "-p=pkg"] !! "--file-name" = None
      <-> Forall (fun a => (keyValue a).1 <> "--file-name")
            ["--verbose"; "-p=pkg"]).
Proof.
  assert ("--file-name" <> "__proto__") as H by discriminate.
  split; [exact H |].
  exact (argument_absent_iff ["--verbose"; "-p=pkg"] "--file-name" H).
Defined.

(** X2. An argument "key=value" whose key and value hold no "=" splits
    to that key and value; anything after a second "=" is cut off; an
    argument without "=" has the whole text as key and no value. *)
Theorem keyValue_forms (k v rest : string) :
  count_char "=" k = 0 ->
  count_char "=" v = 0 ->
  keyValue (k +:+ "=" +:+ v) = (k, Some v)
  /\ keyValue (k +:+ "=" +:+ v +:+ "=" +:+ rest) = (k, Some v)
  /\ keyValue k = (k, None).
Proof.
  intros Hk Hv. unfold keyValue.
  change (k +:+ "=" +:+ v) with (k +:+ String "=" v).
  change (k +:+ "=" +:+ v +:+ "=" +:+ rest)
    with (k +:+ String "=" (v +:+ String "=" rest)).
  rewrite !split_app_sep, !(split_free _ k Hk), !(split_free _ v Hv).
  done.
Qed.

Lemma keyValue_forms_witness :
  count_char "=" "--file-name" = 0
  /\ count_char "=" "@scope/pkg" = 0
  /\ keyValue "--file-name=@scope/pkg=1.0" = ("--file-name", Some "@scope/pkg").
Proof.
  split; [reflexivity |]. split; [reflexivity |].
  exact (proj1 (proj2 (keyValue_forms "--file-name" "@scope/pkg" "1.0"
                         eq_refl eq_refl))).
Defined.

Lemma argument_first (before after : list string) (current key : string) :
  key <> "__proto__" ->
  (keyValue current).1 = key ->
  Forall (fun a => (keyValue a).1 <> key) before ->
  argument (before ++ current :: after) !! key = Some (keyValue current).2.
Proof.
  intros Hproto Hkey Hbefore. unfold argument. rewrite foldl_app.
  cbn [foldl]. apply foldl_step_owned, step_first; [done | done |].
  by rewrite foldl_step_other.
Qed.

(** X3. When the first "--file-name" argument carries no value, or an
    empty one, no package is selected, whatever "--file-name" arguments
    follow. *)
Theorem valueless_flag_selects_nothing (before after : list string)
  (current : string) :
  (keyValue current).1 = "--file-name" ->
  (keyValue current).2 = None \/ (keyValue current).2 = Some "" ->
  Forall (fun a => (keyValue a).1 <> "--file-name") before ->
  packageName (before ++ current :: after) = None.
Proof.
  intros Hkey Hvalue Hbefore. unfold packageName.
  rewrite (argument_first before after current "--file-name")
    by (done || discriminate).
  by destruct Hvalue as [-> | ->].
Qed.

Lemma valueless_flag_selects_nothing_witness :
  (keyValue "--file-name").1 = "--file-name"
  /\ ((keyValue "--file-name").2 = None
      \/ (keyValue "--file-name").2 = Some "")
  /\ Forall (fun a => (keyValue a).1 <> "--file-name") []
  /\ packageName ([] ++ "--file-name" :: ["--file-name=pkg"]) = None.
Proof.
  split; [reflexivity |]. split; [by left |]. split; [constructor |].
  exact (valueless_flag_selects_nothing [] ["--file-name=pkg"] "--file-name"
           eq_refl (or_introl eq_refl) (Forall_nil_2 _)).
Defined.

Lemma step_proto (result : gmap string (option string)) (current : string) :
  step result current !! "__proto__" = result !! "__proto__".
Proof.
  unfold step. destruct (keyValue current) as [k v].
  destruct (result !! k); [done |]. unfold assign.
  destruct (String.eqb_spec k "__proto__") as [->|Hne]; [done |].
  by rewrite lookup_insert_ne.
Qed.

(** X4. No argument list makes the parsed map own the key "__proto__":
    an argument with that key is dropped, the first time and every
    time. *)
Theorem argument_never_owns_proto (argv : list string) :
  argument argv !! "__proto__" = None.
Proof.
  unfold argument.
  assert (forall result : gmap string (option string),
             foldl step result argv !! "__proto__" = result !! "__proto__")
    as H.
  { induction argv as [|current argv IH]; intros result; [done |].
    cbn [foldl]. by rewrite IH, step_proto. }
  by rewrite H.
Qed.

End ArgumentFacts.

(** ** The stub generator: what is written, logged and left alone *)

Module GeneratorFacts.
Import JsString Descriptor Js PostBuild Spec JsStringFacts PostBuildFacts.

Section Generator.
Variable path_join : string -> string -> string.

Lemma console_generateItem (dir : string) (w : World) (item : JsFileEntry) :
  console (generateItem path_join dir w item) = console w ++ [logLine item].
Proof.
  unfold generateItem, logLine.
  by destruct (incomplete (buildContents item)).
Qed.

(** X6. A run logs exactly one line per entry, in order: the failure
    line of an entry that produces nothing, the success line of every
    other. *)
Theorem one_log_line_per_entry (dir : string) (jsFiles : list JsFileEntry)
  (w : World) :
  console (generatePublicAPI path_join dir jsFiles w)
  = console w ++ (logLine <$> jsFiles).
Proof.
  revert w. unfold generatePublicAPI.
  induction jsFiles as [|item jsFiles IH]; intros w.
  - simpl. by rewrite List.app_nil_r.
  - cbn [foldl]. rewrite IH, console_generateItem, fmap_cons.
    by rewrite <- List.app_assoc.
Qed.

Lemma lastWrite_none {V} (key : string) (writes : list (string * V)) :
  Forall (fun kv => kv.1 <> key) writes -> lastWrite key writes = None.
Proof.
  induction 1 as [|[k v] writes Hk _ IH]; [done |].
  simpl. rewrite IH. by rewrite decide_False.
Qed.

(** X7. After a run, a path holds the content of the last write of the
    run to it, and what it held before when the run does not write it:
    a later entry with the same paths silently overwrites an earlier
    one, and no other file is touched. *)
Theorem stub_files_last_write (dir : string) (jsFiles : list JsFileEntry)
  (w : World) (path : string) :
  files (generatePublicAPI path_join dir jsFiles w) !! path
  = match lastWrite path (flat_map (stubWrites path_join dir) jsFiles) with
    | Some content => Some content
    | None => files w !! path
    end
  /\ (Forall (fun kv => kv.1 <> path)
        (flat_map (stubWrites path_join dir) jsFiles) ->
      files (generatePublicAPI path_join dir jsFiles w) !! path
      = files w !! path).
Proof.
  assert (files (generatePublicAPI path_join dir jsFiles w) !! path
          = match lastWrite path
                    (flat_map (stubWrites path_join dir) jsFiles) with
            | Some content => Some content
            | None => files w !! path
            end) as Hlast.
  { rewrite files_generatePublicAPI.
    by rewrite (WriteFacts.putAll_lookup insert (fun _ => True)
                  WriteFacts.insert_lookup_decide). }
  split; [exact Hlast |].
  intros Hnone. by rewrite Hlast, (lastWrite_none _ _ Hnone).
Qed.

Lemma stubWrites_default (dir : string) (item : JsFileEntry) :
  export_kind item = "default export" ->
  lastWrite (path_join dir ("./" +:+ name item +:+ ".esm.d.ts"))
    (stubWrites path_join dir item)
  = Some ("export { default } from '"
          +:+ adjustedFile (name item) (file item) +:+ ".esm';" +:+ LFs).
Proof.
  intros Hkind. unfold stubWrites, buildContents, contentsFor.
  rewrite Hkind. cbn [String.eqb Ascii.eqb Bool.eqb].
  change (incomplete _) with false. cbv iota. cbn [lastWrite].
  by rewrite decide_True.
Qed.

(** X5. A default export never fails, whatever its entry point, and its
    stub survives the run unless a later entry writes the same path:
    after the run, the ESM declaration stub of the entry re-exports the
    default of the adjusted file with ".esm" appended. *)
Theorem default_export_stub_survives (dir : string)
  (before after : list JsFileEntry) (item : JsFileEntry) (w : World) :
  export_kind item = "default export" ->
  Forall (fun kv => kv.1 <> path_join dir ("./" +:+ name item +:+ ".esm.d.ts"))
    (flat_map (stubWrites path_join dir) after) ->
  incomplete (buildContents item) = false
  /\ files (generatePublicAPI path_join dir (before ++ item :: after) w)
       !! path_join dir ("./" +:+ name item +:+ ".esm.d.ts")
     = Some ("export { default } from '"
             +:+ adjustedFile (name item) (file item) +:+ ".esm';" +:+ LFs).
Proof.
  intros Hkind Hafter. split.
  - unfold buildContents, contentsFor. rewrite Hkind. reflexivity.
  - rewrite files_generatePublicAPI.
    rewrite (WriteFacts.putAll_lookup insert (fun _ => True)
               WriteFacts.insert_lookup_decide) by done.
    rewrite flat_map_app. cbn [flat_map].
    rewrite SyncFileFacts.lastWrite_app, SyncFileFacts.lastWrite_app.
    rewrite (lastWrite_none _ _ Hafter).
    by rewrite (stubWrites_default dir item Hkind).
Qed.

(** X9. The paths an entry writes are its four published names, each
    joined to the package directory after "./". *)
Theorem written_paths_are_published_names (dir : string)
  (item : JsFileEntry) :
  incomplete (buildContents item) = false ->
  fst <$> stubWrites path_join dir item
  ≡ₚ (fun n => path_join dir ("./" +:+ n)) <$> SyncFile.generatedNames item.
Proof.
  intros H. unfold stubWrites. rewrite H. cbn [fmap list_fmap fst].
  unfold SyncFile.generatedNames. cbn [fmap list_fmap].
  apply perm_skip, perm_swap.
Qed.
End Generator.

(** X8. For every entry point, the export list of the declaration stubs
    is the comma-join of the plain strings and of "type <name>" for the
    interface-marked items with a name, and the export list of the JS
    stubs the comma-join of the plain strings alone; in both, empty
    names at the head of the list leave no trace, not even a comma. *)
Theorem export_lists_comma_joined (entryPoint : list entry_point_item) :
  formattedEntryPointDTS entryPoint
  = join ", " (dropEmpty (omap declarationName entryPoint))
  /\ formattedEntryPointNonType entryPoint
     = join ", " (dropEmpty (omap valueName entryPoint)).
Proof.
  split.
  - apply foldl_reduce, reduceDTS_render.
  - apply foldl_reduce, reduceNonType_render.
Qed.

Lemma default_export_stub_survives_witness :
  export_kind Sample.apiEntry = "default export"
  /\ Forall (fun kv => kv.1 <> Sample.joinLiteral "pkg"
                                 ("./" +:+ name Sample.apiEntry
                                  +:+ ".esm.d.ts"))
       (flat_map (stubWrites Sample.joinLiteral "pkg") [Sample.plainEntry])
  /\ files (generatePublicAPI Sample.joinLiteral "pkg"
              ([] ++ Sample.apiEntry :: [Sample.plainEntry])
              Sample.emptyWorld)
       !! "pkg/./a/b/api.esm.d.ts"
     = Some ("export { default } from '../../dist/a/b/api.esm';" +:+ LFs).
Proof.
  assert (Forall (fun kv => kv.1 <> Sample.joinLiteral "pkg"
                                      ("./" +:+ name Sample.apiEntry
                                       +:+ ".esm.d.ts"))
            (flat_map (stubWrites Sample.joinLiteral "pkg")
               [Sample.plainEntry])) as Hafter
    by (repeat constructor; discriminate).
  split; [reflexivity |]. split; [exact Hafter |].
  exact (proj2 (default_export_stub_survives Sample.joinLiteral "pkg" []
                  [Sample.plainEntry] Sample.apiEntry Sample.emptyWorld
                  eq_refl Hafter)).
Defined.

Lemma written_paths_are_published_names_witness :
  incomplete (buildContents Sample.hooksEntry) = false
  /\ fst <$> stubWrites Sample.joinLiteral "pkg" Sample.hooksEntry
     ≡ₚ (fun n => Sample.joinLiteral "pkg" ("./" +:+ n))
          <$> SyncFile.generatedNames Sample.hooksEntry.
Proof.
  split; [reflexivity |].
  exact (written_paths_are_published_names Sample.joinLiteral "pkg"
           Sample.hooksEntry eq_refl).
Defined.

End GeneratorFacts.

(** ** The declaration mirror: which files are picked and where the
       mirrors go *)

Module MirrorFacts.
Import JsString Descriptor Js PostBuild Spec JsStringFacts.

#[local] Arguments String.append !_ _ / : simpl nomatch.

Lemma endsWith_spec (s search : string) :
  endsWith s search = true <-> exists a, s = a +:+ search.
Proof.
  induction s as [|c s IH].
  - unfold endsWith. rewrite orb_false_r, String.eqb_eq. split.
    + intros <-. by exists "".
    + intros [a Ha]. destruct a; [done | discriminate].
  - change (endsWith (String c s) search)
      with (String.eqb (String c s) search || endsWith s search).
    rewrite orb_true_iff, String.eqb_eq, IH. split.
    + intros [<- | [a ->]]; [by exists "" | by exists (String c a)].
    + intros [[|d a] Ha]; simpl in Ha; [by left |].
      right. exists a. congruence.
Qed.

Lemma endsWith_append (a search : string) : endsWith (a +:+ search) search = true.
Proof. apply endsWith_spec. by exists a. Qed.

(** X11. A file name passes the test of the scan exactly when it is a
    stem followed by ".d.ts" and the stem ends neither in ".esm" nor in
    ".cjs"; no text ending in ".esm.d.ts" or ".cjs.d.ts" passes it, and
    the relative path built for a mirror, which ends in ".esm.d.ts",
    never does. *)
Theorem regular_declaration_names (file base : string) :
  (isRegularDts file = true
   <-> exists stem, file = stem +:+ ".d.ts"
         /\ endsWith stem ".esm" = false /\ endsWith stem ".cjs" = false)
  /\ isRegularDts (base +:+ ".esm.d.ts") = false
  /\ isRegularDts (base +:+ ".cjs.d.ts") = false
  /\ isRegularDts (esmRelativePath base) = false.
Proof.
  assert (forall mark stem : string,
            endsWith (stem +:+ ".d.ts") (mark +:+ ".d.ts")
            = endsWith stem mark) as Hmark.
  { intros mark stem. apply eq_true_iff_eq. rewrite !endsWith_spec. split.
    - intros [a Ha]. exists a. rewrite <- append_assoc in Ha.
      by apply SyncFileFacts.append_inj_r in Ha.
    - intros [a ->]. exists a. by rewrite append_assoc. }
  split; [| split; [| split]].
  - unfold isRegularDts. rewrite !andb_true_iff, !negb_true_iff. split.
    + intros [[[stem ->]%endsWith_spec Hesm] Hcjs]. exists stem.
      change ".esm.d.ts" with (".esm" +:+ ".d.ts") in Hesm.
      change ".cjs.d.ts" with (".cjs" +:+ ".d.ts") in Hcjs.
      by rewrite Hmark in Hesm, Hcjs.
    + intros [stem [-> [Hesm Hcjs]]].
      change ".esm.d.ts" with (".esm" +:+ ".d.ts").
      change ".cjs.d.ts" with (".cjs" +:+ ".d.ts").
      rewrite !Hmark. by rewrite endsWith_append.
  - unfold isRegularDts. by rewrite (endsWith_append base ".esm.d.ts"), andb_false_r.
  - unfold isRegularDts. by rewrite (endsWith_append base ".cjs.d.ts"), andb_false_r.
  - unfold isRegularDts, esmRelativePath.
    by rewrite (endsWith_append _ ".esm.d.ts"), andb_false_r.
Qed.

Lemma prefix_dts_short (c : ascii) (r t : string) :
  String.prefix ".d.ts" (String c r) = false ->
  String.prefix ".d.ts" (String c (r +:+ ".d.ts" +:+ t)) = false.
Proof.
  intros Hno.
  destruct (String.prefix ".d.ts" (String c (r +:+ ".d.ts" +:+ t))) eqn:E;
    [| done].
  apply prefix_spec in E as [q Hq].
  destruct r as [|c2 [|c3 [|c4 [|c5 r]]]]; simpl in Hq; try discriminate Hq.
  injection Hq as -> -> -> -> -> _.
  assert (String.prefix ".d.ts" (".d.ts" +:+ r) = true) as Hyes
    by (apply prefix_spec; by exists r).
  change (".d.ts" +:+ r)
    with (String "." (String "d" (String "." (String "t" (String "s" r)))))
    in Hyes.
  congruence.
Qed.

Lemma replace_first_dts (a b : string) :
  includes a ".d.ts" = false ->
  replace (a +:+ ".d.ts" +:+ b) ".d.ts" "" = a +:+ b.
Proof.
  induction a as [|c a IH]; intros Hno.
  - change (replace ("" +:+ ".d.ts" +:+ b) ".d.ts" "")
      with (if String.prefix ".d.ts" (".d.ts" +:+ b) then b
            else String "." (replace ("d.ts" +:+ b) ".d.ts" "")).
    assert (String.prefix ".d.ts" (".d.ts" +:+ b) = true) as ->
      by (apply prefix_spec; by exists b).
    reflexivity.
  - rewrite includes_cons in Hno. apply orb_false_iff in Hno as [Hhead Hrest].
    change (String c a +:+ ".d.ts" +:+ b) with (String c (a +:+ ".d.ts" +:+ b)).
    change (replace (String c (a +:+ ".d.ts" +:+ b)) ".d.ts" "")
      with (if String.prefix ".d.ts" (String c (a +:+ ".d.ts" +:+ b))
            then "" +:+ slice 5 (String c (a +:+ ".d.ts" +:+ b))
            else String c (replace (a +:+ ".d.ts" +:+ b) ".d.ts" "")).
    rewrite (prefix_dts_short c a b Hhead), (IH Hrest). reflexivity.
Qed.

(** X12. The name of a mirror is the relative path with its first
    ".d.ts" taken out, wherever it stands, and ".esm.d.ts" appended: for
    a path whose only ".d.ts" is its ending this is the sibling
    "<stem>.esm.d.ts"; for a path with an earlier ".d.ts", in a
    directory name for instance, that earlier one is removed and the
    ending stays. *)
Theorem mirror_name_drops_first_dts (before after : string) :
  includes before ".d.ts" = false ->
  esmRelativePath (before +:+ ".d.ts" +:+ after)
  = before +:+ after +:+ ".esm.d.ts"
  /\ esmRelativePath (before +:+ ".d.ts") = before +:+ ".esm.d.ts".
Proof.
  intros Hno. unfold esmRelativePath. split.
  - by rewrite (replace_first_dts before after Hno), append_assoc.
  - pose proof (replace_first_dts before "" Hno) as H.
    rewrite !append_empty_r in H. by rewrite H.
Qed.

Lemma mirror_name_drops_first_dts_witness :
  includes "types" ".d.ts" = false
  /\ esmRelativePath ("types" +:+ ".d.ts" +:+ "/index.d.ts")
     = "types/index.d.ts.esm.d.ts"
  /\ esmRelativePath ("types" +:+ ".d.ts") = "types.esm.d.ts".
Proof.
  split; [reflexivity |].
  exact (mirror_name_drops_first_dts "types" "/index.d.ts" eq_refl).
Defined.

(** Induction on a directory tree, with the property at hand for every
    entry of a directory. *)
Lemma DirEntry_tree_ind (P : DirEntry -> Prop) :
  P File ->
  (forall entries, Forall (fun fn => P fn.2) entries -> P (Directory entries)) ->
  forall tree, P tree.
Proof.
  intros HFile HDir. fix IH 1. intros [|entries]; [exact HFile |].
  apply HDir. induction entries as [|[file node] entries IHentries].
  - constructor.
  - constructor; [apply IH | exact IHentries].
Qed.

Section Scan.
Variable path_join : string -> string -> string.

Lemma getAllDtsFilesIn_regularDtsPaths (tree : DirEntry) :
  forall (dir : string) (fileList : list string),
    getAllDtsFilesIn path_join dir tree fileList
    = fileList ++ regularDtsPaths path_join dir tree.
Proof.
  induction tree as [|entries IH] using DirEntry_tree_ind; intros dir fileList.
  - simpl. by rewrite List.app_nil_r.
  - unfold regularDtsPaths. cbn [getAllDtsFilesIn listFiles].
    revert fileList. induction IH as [|[file node] entries Hnode _ IHentries];
      intros fileList.
    + simpl. by rewrite List.app_nil_r.
    + rewrite IHentries. rewrite filter_app, fmap_app, List.app_assoc.
      f_equal. destruct node as [|sub].
      * destruct (isRegularDts file) eqn:E.
        -- by rewrite filter_cons_True.
        -- rewrite filter_cons_False by (cbn [snd]; congruence).
           simpl. by rewrite List.app_nil_r.
      * cbn [snd] in Hnode. apply Hnode.
Qed.

(** X10. The scan returns the array it was given followed by the paths
    of the regular declaration files of the tree, depth first in
    directory order: nothing already collected is lost or reordered,
    and a file is collected exactly when its own name passes the
    test. *)
Theorem getAllDtsFiles_collects (dir : string)
  (entries : list (string * DirEntry)) (fileList : list string) :
  getAllDtsFiles path_join dir entries fileList
  = fileList ++ regularDtsPaths path_join dir (Directory entries).
Proof. apply getAllDtsFilesIn_regularDtsPaths. Qed.

Variable path_relative : string -> string -> string.
Variable path_basename : string -> string -> string.


End Scan.

End MirrorFacts.

(** ** The ignore file: what is kept and where the block goes *)

Module IgnoreFileFacts.
Import JsString Descriptor Js SyncFile Spec JsStringFacts SyncFileFacts.

(** Joining the pieces of a text gives the text back. *)
Lemma join_split (sep : ascii) (s : string) :
  join (String sep "") (split sep s) = s.
Proof.
  induction s as [|c s IH]; [reflexivity |].
  cbn [split]. pose proof (split_nonempty sep s) as Hne.
  destruct (split sep s) as [|p ps] eqn:E; [done |].
  destruct (Ascii.eqb_spec c sep) as [->|Hc].
  - change (join (String sep "") ("" :: p :: ps))
      with (String sep (join (String sep "") (p :: ps))).
    by rewrite IH.
  - destruct ps as [|p2 ps].
    + change (String c p = String c s). by rewrite <- IH.
    + change (String c (join (String sep "") (p :: p2 :: ps)) = String c s).
      by rewrite IH.
Qed.

Lemma join_app (sep : string) (l1 l2 : list string) :
  l1 <> [] -> l2 <> [] ->
  join sep (l1 ++ l2) = join sep l1 +:+ sep +:+ join sep l2.
Proof.
  intros H1 H2. induction l1 as [|x l1 IH]; [done |].
  destruct l1 as [|y l1].
  - destruct l2 as [|z l2]; [done | reflexivity].
  - change (join sep ((x :: y :: l1) ++ l2))
      with (x +:+ sep +:+ join sep ((y :: l1) ++ l2)).
    rewrite IH by done.
    change (join sep (x :: y :: l1)) with (x +:+ sep +:+ join sep (y :: l1)).
    by rewrite !append_assoc.
Qed.

Lemma filterLines_free (lines : list string) :
  Forall (fun line => markerFree line = true) lines ->
  filterLines false lines = lines.
Proof.
  intros H. pose proof (filterLines_free_app lines [] H) as Happ.
  by rewrite !List.app_nil_r in Happ.
Qed.

(** X14. An ignore file in which no line contains a marker text is kept
    whole, byte for byte, and the block is appended after a line break,
    without a line break at the end. *)
Theorem marker_free_file_kept (jsFiles : list JsFileEntry) (content : string) :
  Forall (fun line => markerFree line = true) (split LF content) ->
  registerGITIgnoreFiles (Some jsFiles) content
  = Returned (content +:+ LFs
              +:+ join LFs (GIT_IGNORE_START_LINE
                            :: generatedBlock jsFiles
                            ++ [GIT_IGNORE_END_LINE])).
Proof.
  intros Hfree. rewrite registerGITIgnoreFiles_lines.
  rewrite (filterLines_free _ Hfree).
  rewrite join_app by (done || apply split_nonempty).
  unfold LFs at 1. by rewrite join_split.
Qed.

Lemma marker_free_file_kept_witness :
  Forall (fun line => markerFree line = true)
    (split LF ("node_modules" +:+ LFs +:+ "dist" +:+ LFs))
  /\ registerGITIgnoreFiles (Some []) ("node_modules" +:+ LFs +:+ "dist" +:+ LFs)
     = Returned ("node_modules" +:+ LFs +:+ "dist" +:+ LFs +:+ LFs
                 +:+ "### Start Generated Section" +:+ LFs
                 +:+ "### End Generated Section").
Proof.
  assert (Forall (fun line => markerFree line = true)
            (split LF ("node_modules" +:+ LFs +:+ "dist" +:+ LFs))) as H
    by (repeat constructor).
  split; [exact H |].
  exact (marker_free_file_kept [] ("node_modules" +:+ LFs +:+ "dist" +:+ LFs) H).
Defined.

(** X15. An ignore file with one block between marker-free lines loses
    the block, both marker lines included, keeps the lines before and
    after it in order, and gets the fresh block after them: the block
    moves to the end of the file. *)
Theorem existing_block_moves_to_end (jsFiles : list JsFileEntry)
  (before inner after : list string) (start finish : string) :
  Forall (fun l => count_char LF l = 0)
    (before ++ start :: inner ++ finish :: after) ->
  Forall (fun l => markerFree l = true) before ->
  includes start GIT_IGNORE_START_LINE = true ->
  Forall (fun l => includes l GIT_IGNORE_END_LINE = false) inner ->
  includes finish GIT_IGNORE_START_LINE = false ->
  includes finish GIT_IGNORE_END_LINE = true ->
  Forall (fun l => markerFree l = true) after ->
  registerGITIgnoreFiles (Some jsFiles)
    (join LFs (before ++ start :: inner ++ finish :: after))
  = Returned (join LFs (before ++ after
                        ++ GIT_IGNORE_START_LINE
                           :: generatedBlock jsFiles
                           ++ [GIT_IGNORE_END_LINE])).
Proof.
  intros Hlines Hbefore Hstart Hinner Hfs Hfe Hafter.
  rewrite registerGITIgnoreFiles_lines. unfold LFs at 1.
  rewrite split_join by (by destruct before).
  rewrite (flat_map_split_free _ Hlines).
  rewrite (filterLines_free_app _ _ Hbefore).
  rewrite (filterLines_start false start _ Hstart).
  rewrite (filterLines_inside _ _ Hinner).
  rewrite (filterLines_end true finish _ Hfs Hfe).
  rewrite (filterLines_free _ Hafter).
  by rewrite <- List.app_assoc.
Qed.

Lemma existing_block_moves_to_end_witness :
  Forall (fun l => count_char LF l = 0)
    (["node_modules"] ++ "### Start Generated Section"
       :: ["old.js"] ++ "### End Generated Section" :: ["coverage"])
  /\ Forall (fun l => markerFree l = true) ["node_modules"]
  /\ includes "### Start Generated Section" GIT_IGNORE_START_LINE = true
  /\ Forall (fun l => includes l GIT_IGNORE_END_LINE = false) ["old.js"]
  /\ includes "### End Generated Section" GIT_IGNORE_START_LINE = false
  /\ includes "### End Generated Section" GIT_IGNORE_END_LINE = true
  /\ Forall (fun l => markerFree l = true) ["coverage"]
  /\ registerGITIgnoreFiles (Some [])
       (join LFs (["node_modules"] ++ "### Start Generated Section"
                    :: ["old.js"] ++ "### End Generated Section"
                    :: ["coverage"]))
     = Returned (join LFs ["node_modules"; "coverage";
                           "### Start Generated Section";
                           "### End Generated Section"]).
Proof.
  assert (Forall (fun l => count_char LF l = 0)
            (["node_modules"] ++ "### Start Generated Section"
               :: ["old.js"] ++ "### End Generated Section" :: ["coverage"]))
    as H1 by (repeat constructor).
  assert (Forall (fun l => markerFree l = true) ["node_modules"]) as H2
    by (repeat constructor).
  assert (Forall (fun l => includes l GIT_IGNORE_END_LINE = false) ["old.js"])
    as H4 by (repeat constructor).
  assert (Forall (fun l => markerFree l = true) ["coverage"]) as H7
    by (repeat constructor).
  split; [exact H1 |]. split; [exact H2 |]. split; [reflexivity |].
  split; [exact H4 |]. split; [reflexivity |]. split; [reflexivity |].
  split; [exact H7 |].
  exact (existing_block_moves_to_end [] ["node_modules"] ["old.js"]
           ["coverage"] "### Start Generated Section"
           "### End Generated Section" H1 H2 eq_refl H4 eq_refl eq_refl H7).
Defined.

End IgnoreFileFacts.

(** ** The package metadata: static files, custom entries, reruns *)

Module ManifestFacts.
Import JsString Descriptor Js SyncFile Spec JsStringFacts SyncFileFacts.

Lemma lastWrite_jsWrites_none (key : string) (names : list string) :
  Forall (fun n => "./" +:+ n <> key /\ "./" +:+ n +:+ ".cjs" <> key) names ->
  lastWrite key (jsWrites names) = None.
Proof.
  intros H. apply GeneratorFacts.lastWrite_none. unfold jsWrites.
  apply Forall_flat_map. eapply List.Forall_impl; [| exact H].
  intros n [Hesm Hcjs]. by repeat constructor.
Qed.

Lemma lastWrite_last {V} (key : string) (before after : list (string * V))
  (v : V) :
  Forall (fun kv => kv.1 <> key) after ->
  lastWrite key (before ++ (key, v) :: after) = Some v.
Proof.
  intros Hafter. rewrite lastWrite_app. simpl.
  rewrite (GeneratorFacts.lastWrite_none _ _ Hafter).
  by rewrite decide_True.
Qed.

(** X16. A static file entry that is the last of its name, and whose
    key no JS entry writes, is exported as the bare file path under
    "./" + name, whatever the custom configuration says about that
    key. *)
Theorem static_file_exported (customConfig : list CustomConfigEntry)
  (jsFiles : list JsFileEntry) (before after : list StaticFileEntry)
  (item : StaticFileEntry) (pkg : gmap string json) :
  Forall (fun other => static_name other <> static_name item) after ->
  Forall (fun e => name e <> static_name item
                   /\ name e +:+ ".cjs" <> static_name item) jsFiles ->
  exists out exports,
    registerExposedFiles (Some customConfig) (Some jsFiles)
      (Some (before ++ item :: after)) pkg = Returned out
    /\ out !! "exports" = Some (JObj exports)
    /\ exports !! ("./" +:+ static_name item)
       = Some (JStr (static_file item)).
Proof.
  intros Hafter Hjs.
  eexists _, _. split; [apply registerExposedFiles_content |].
  split; [apply lookup_insert_eq |].
  rewrite exports_lookup by apply dot_slash_not_proto.
  unfold exportWrites. rewrite !lastWrite_app.
  rewrite lastWrite_jsWrites_none.
  2:{ apply Forall_fmap. eapply List.Forall_impl; [| exact Hjs].
      intros e [Hn Hc]. split; intros H%esm_key_inj; done. }
  unfold staticWrites. rewrite fmap_app, fmap_cons.
  rewrite lastWrite_last; [done |].
  apply Forall_fmap. eapply List.Forall_impl; [| exact Hafter].
  intros other Hother H%esm_key_inj. done.
Qed.

Lemma static_file_exported_witness :
  Forall (fun other => static_name other <> static_name Sample.stylesEntry) []
  /\ Forall (fun e => name e <> static_name Sample.stylesEntry
                      /\ name e +:+ ".cjs" <> static_name Sample.stylesEntry)
       [Sample.buttonEntry]
  /\ exists out exports,
       registerExposedFiles (Some []) (Some [Sample.buttonEntry])
         (Some ([] ++ Sample.stylesEntry :: [])) ∅ = Returned out
       /\ out !! "exports" = Some (JObj exports)
       /\ exports !! "./styles" = Some (JStr "./dist/styles.css").
Proof.
  assert (Forall (fun e => name e <> static_name Sample.stylesEntry
                           /\ name e +:+ ".cjs"
                              <> static_name Sample.stylesEntry)
            [Sample.buttonEntry]) as Hjs
    by (repeat constructor; discriminate).
  split; [constructor |]. split; [exact Hjs |].
  exact (static_file_exported [] [Sample.buttonEntry] [] []
           Sample.stylesEntry ∅ (Forall_nil_2 _) Hjs).
Defined.

(** X17. A custom configuration entry whose name is not "__proto__",
    that is the last of its name, and whose name no static file and no
    JS entry writes, is exported under its name as it is, without a
    "./" in front. *)
Theorem custom_config_exported (before after : list CustomConfigEntry)
  (item : CustomConfigEntry) (jsFiles : list JsFileEntry)
  (staticFiles : list StaticFileEntry) (pkg : gmap string json) :
  custom_name item <> "__proto__" ->
  Forall (fun other => custom_name other <> custom_name item) after ->
  Forall (fun s => "./" +:+ static_name s <> custom_name item) staticFiles ->
  Forall (fun e => "./" +:+ name e <> custom_name item
                   /\ "./" +:+ name e +:+ ".cjs" <> custom_name item)
    jsFiles ->
  exists out exports,
    registerExposedFiles (Some (before ++ item :: after)) (Some jsFiles)
      (Some staticFiles) pkg = Returned out
    /\ out !! "exports" = Some (JObj exports)
    /\ exports !! custom_name item = Some (export_config item).
Proof.
  intros Hproto Hafter Hstatic Hjs.
  eexists _, _. split; [apply registerExposedFiles_content |].
  split; [apply lookup_insert_eq |].
  rewrite exports_lookup by done.
  unfold exportWrites. rewrite !lastWrite_app.
  rewrite lastWrite_jsWrites_none by (by apply Forall_fmap).
  rewrite GeneratorFacts.lastWrite_none by (by apply Forall_fmap).
  unfold customWrites. rewrite fmap_app, fmap_cons.
  rewrite lastWrite_last; [done |]. by apply Forall_fmap.
Qed.

Lemma custom_config_exported_witness :
  custom_name Sample.rootEntry <> "__proto__"
  /\ Forall (fun other => custom_name other <> custom_name Sample.rootEntry) []
  /\ Forall (fun s => "./" +:+ static_name s <> custom_name Sample.rootEntry)
       [Sample.stylesEntry]
  /\ Forall (fun e => "./" +:+ name e <> custom_name Sample.rootEntry
                      /\ "./" +:+ name e +:+ ".cjs"
                         <> custom_name Sample.rootEntry)
       [Sample.buttonEntry]
  /\ exists out exports,
       registerExposedFiles (Some ([] ++ Sample.rootEntry :: []))
         (Some [Sample.buttonEntry]) (Some [Sample.stylesEntry]) ∅
       = Returned out
       /\ out !! "exports" = Some (JObj exports)
       /\ exports !! "." = Some (JStr "./dist/index.js").
Proof.
  assert (custom_name Sample.rootEntry <> "__proto__") as Hp by discriminate.
  assert (Forall (fun s => "./" +:+ static_name s
                           <> custom_name Sample.rootEntry)
            [Sample.stylesEntry]) as Hs
    by (repeat constructor; discriminate).
  assert (Forall (fun e => "./" +:+ name e <> custom_name Sample.rootEntry
                           /\ "./" +:+ name e +:+ ".cjs"
                              <> custom_name Sample.rootEntry)
            [Sample.buttonEntry]) as Hj
    by (repeat constructor; discriminate).
  split; [exact Hp |]. split; [constructor |]. split; [exact Hs |].
  split; [exact Hj |].
  exact (custom_config_exported [] [] Sample.rootEntry [Sample.buttonEntry]
           [Sample.stylesEntry] ∅ Hp (Forall_nil_2 _) Hs Hj).
Defined.

Lemma registerExposedFiles_cases
  (customConfig : option (list CustomConfigEntry))
  (jsFiles : option (list JsFileEntry))
  (staticFiles : option (list StaticFileEntry)) (pkg : gmap string json) :
  registerExposedFiles customConfig jsFiles staticFiles pkg
  = match customConfig, staticFiles, jsFiles with
    | Some c, Some s, Some j =>
        Returned
          (<["exports" := JObj (putAll assign ∅ (exportWrites c s j))]>
           (<["files" := JArr (JStr <$> exposedFiles c j)]> pkg))
    | _, _, _ => Threw TypeError
    end.
Proof.
  destruct customConfig as [c|], staticFiles as [s|], jsFiles as [j|];
    try reflexivity.
  apply registerExposedFiles_content.
Qed.

Lemma registerGITIgnoreFiles_cases (jsFiles : option (list JsFileEntry))
  (content : string) :
  registerGITIgnoreFiles jsFiles content
  = match jsFiles with
    | Some j =>
        Returned (join LFs (filterLines false (split LF content)
                            ++ GIT_IGNORE_START_LINE
                               :: generatedBlock j
                               ++ [GIT_IGNORE_END_LINE]))
    | None => Threw TypeError
    end.
Proof.
  destruct jsFiles as [j|]; [apply registerGITIgnoreFiles_lines | reflexivity].
Qed.

(** X18. The metadata rewriter returns exactly when the three lists are
    all present and the ignore-file rewriter exactly when the JS list
    is; otherwise they throw a TypeError, and nothing is written. *)
Theorem rewriters_return_iff
  (customConfig : option (list CustomConfigEntry))
  (jsFiles : option (list JsFileEntry))
  (staticFiles : option (list StaticFileEntry))
  (pkg : gmap string json) (content : string) :
  ((exists out,
       registerExposedFiles customConfig jsFiles staticFiles pkg
       = Returned out)
   <-> is_Some customConfig /\ is_Some jsFiles /\ is_Some staticFiles)
  /\ ((exists out, registerGITIgnoreFiles jsFiles content = Returned out)
      <-> is_Some jsFiles)
  /\ (registerExposedFiles customConfig jsFiles staticFiles pkg
      = Threw TypeError
      \/ exists out,
           registerExposedFiles customConfig jsFiles staticFiles pkg
           = Returned out)
  /\ (registerGITIgnoreFiles jsFiles content = Threw TypeError
      \/ exists out, registerGITIgnoreFiles jsFiles content = Returned out).
Proof.
  rewrite registerExposedFiles_cases, registerGITIgnoreFiles_cases.
  unfold is_Some.
  destruct customConfig as [c|], staticFiles as [s|], jsFiles as [j|];
    repeat split; intros;
    repeat match goal with
           | H : ex _ |- _ => destruct H
           | H : _ /\ _ |- _ => destruct H
           end;
    try discriminate; eauto.
Qed.

(** X19. Rewriting the metadata is idempotent: run on the object it
    returned, with the same lists, the rewriter returns that object
    again. *)
Theorem registerExposedFiles_idempotent
  (customConfig : option (list CustomConfigEntry))
  (jsFiles : option (list JsFileEntry))
  (staticFiles : option (list StaticFileEntry))
  (pkg out : gmap string json) :
  registerExposedFiles customConfig jsFiles staticFiles pkg = Returned out ->
  registerExposedFiles customConfig jsFiles staticFiles out = Returned out.
Proof.
  destruct customConfig as [c|], staticFiles as [s|], jsFiles as [j|];
    try discriminate.
  rewrite !registerExposedFiles_content. intros [= <-]. f_equal.
  apply map_eq. intros key.
  destruct (decide (key = "exports")) as [->|He];
    [by rewrite !lookup_insert_eq |].
  rewrite !(lookup_insert_ne _ "exports" key) by done.
  destruct (decide (key = "files")) as [->|Hf];
    [by rewrite !lookup_insert_eq |].
  rewrite (lookup_insert_ne _ "files" key) by done.
  rewrite (lookup_insert_ne _ "exports" key) by done.
  done.
Qed.

Lemma registerExposedFiles_idempotent_witness :
  registerExposedFiles (Some []) (Some [Sample.buttonEntry]) (Some [])
    {["name" := JStr "@scope/pkg"]}
  = Returned
      (<["exports" := JObj (putAll assign ∅
                              (exportWrites [] [] [Sample.buttonEntry]))]>
       (<["files" := JArr (JStr <$> exposedFiles [] [Sample.buttonEntry])]>
        {["name" := JStr "@scope/pkg"]}))
  /\ registerExposedFiles (Some []) (Some [Sample.buttonEntry]) (Some [])
       (<["exports" := JObj (putAll assign ∅
                               (exportWrites [] [] [Sample.buttonEntry]))]>
        (<["files" := JArr (JStr <$> exposedFiles [] [Sample.buttonEntry])]>
         {["name" := JStr "@scope/pkg"]}))
     = Returned
         (<["exports" := JObj (putAll assign ∅
                                 (exportWrites [] [] [Sample.buttonEntry]))]>
          (<["files" := JArr (JStr <$> exposedFiles [] [Sample.buttonEntry])]>
           {["name" := JStr "@scope/pkg"]})).
Proof.
  assert (registerExposedFiles (Some []) (Some [Sample.buttonEntry]) (Some [])
            {["name" := JStr "@scope/pkg"]}
          = Returned
              (<["exports" := JObj (putAll assign ∅
                                      (exportWrites [] []
                                         [Sample.buttonEntry]))]>
               (<["files" :=
                    JArr (JStr <$> exposedFiles [] [Sample.buttonEntry])]>
                {["name" := JStr "@scope/pkg"]}))) as H by reflexivity.
  split; [exact H |].
  exact (registerExposedFiles_idempotent _ _ _ _ _ H).
Defined.

End ManifestFacts.

(** ** Across the scripts: what is listed, written and ignored *)

Module ConsistencyFacts.
Import JsString Descriptor Js SyncFile Spec JsStringFacts SyncFileFacts.

Lemma generatedNames_in_block (jsFiles : list JsFileEntry)
  (item : JsFileEntry) :
  item ∈ jsFiles -> generatedNames item ⊆ generatedBlock jsFiles.
Proof.
  intros Hin x Hx. unfold generatedBlock.
  apply list_elem_of_In, in_flat_map. exists item.
  split; by apply list_elem_of_In.
Qed.

(** X20. The synchronizer does not look at the export kind: an entry
    the generator skips, for which no stub is ever written, still has
    its four names in the published files and in the block of the
    ignore file. *)
Theorem skipped_entries_still_listed
  (path_join : string -> string -> string) (dir : string)
  (customConfig : list CustomConfigEntry) (jsFiles : list JsFileEntry)
  (staticFiles : list StaticFileEntry) (pkg : gmap string json)
  (content : string) (item : JsFileEntry) :
  item ∈ jsFiles ->
  unsupported item ->
  stubWrites path_join dir item = []
  /\ exists out listed block,
       registerExposedFiles (Some customConfig) (Some jsFiles)
         (Some staticFiles) pkg = Returned out
       /\ out !! "files" = Some (JArr (JStr <$> listed))
       /\ generatedNames item ⊆ listed
       /\ registerGITIgnoreFiles (Some jsFiles) content
          = Returned (join LFs (filterLines false (split LF content)
                                ++ GIT_IGNORE_START_LINE
                                   :: block ++ [GIT_IGNORE_END_LINE]))
       /\ generatedNames item ⊆ block.
Proof.
  intros Hin Hskip. split.
  - unfold stubWrites.
    by rewrite (PostBuildFacts.unsupported_noContents item Hskip).
  - exists (<["exports" :=
               JObj (putAll assign ∅
                       (exportWrites customConfig staticFiles jsFiles))]>
            (<["files" := JArr (JStr <$> exposedFiles customConfig jsFiles)]>
             pkg)),
      (exposedFiles customConfig jsFiles), (generatedBlock jsFiles).
    split; [apply registerExposedFiles_content |].
    split; [by rewrite lookup_insert_ne, lookup_insert_eq |].
    split.
    { intros x Hx. unfold exposedFiles. right. apply elem_of_app. right.
      by apply (generatedNames_in_block jsFiles item Hin). }
    split; [apply registerGITIgnoreFiles_lines |].
    by apply generatedNames_in_block.
Qed.

Lemma skipped_entries_still_listed_witness :
  Sample.unknownKindEntry ∈ [Sample.unknownKindEntry]
  /\ unsupported Sample.unknownKindEntry
  /\ stubWrites Sample.joinLiteral "pkg" Sample.unknownKindEntry = [].
Proof.
  assert (Sample.unknownKindEntry ∈ [Sample.unknownKindEntry]) as Hin by left.
  assert (unsupported Sample.unknownKindEntry) as Hskip
    by (left; split; discriminate).
  split; [exact Hin |]. split; [exact Hskip |].
  exact (proj1 (skipped_entries_still_listed Sample.joinLiteral "pkg" [] _ []
                  ∅ "" Sample.unknownKindEntry Hin Hskip)).
Defined.

(** X21. The lint configuration ignores the four root index stubs
    followed by exactly the names the synchronizer puts in the block of
    the ignore file, in the same order; without a ["js-file"] field it
    throws a TypeError. *)
Theorem lint_ignores_generated_block (jsFiles : list JsFileEntry) :
  EslintConfig.ignoredGeneratedFile (Some jsFiles)
  = Returned (["index.js"; "index.d.ts"; "index.esm.js"; "index.esm.d.ts"]
              ++ generatedBlock jsFiles)
  /\ EslintConfig.ignoredGeneratedFile None = Threw TypeError.
Proof.
  split; [| reflexivity].
  unfold EslintConfig.ignoredGeneratedFile. f_equal.
  apply (foldl_pushNames _ jsFiles).
Qed.

(** X22. The documented copy of the synchronizer defaults every absent
    field to the empty list: both rewriters return for every
    descriptor, and for the empty descriptor the metadata gets
    [files = ["dist"]] and an empty [exports], and the ignore file its
    kept lines followed by an empty block. *)
Theorem documented_reader_defaults (d : EntryPointDescriptor)
  (gitignore : string) (pkg : gmap string json) :
  (exists once out,
      SyncFileDocumented.main d gitignore pkg = (Returned once, Returned out))
  /\ SyncFileDocumented.main
       {| js_file := None; static_files := None; custom_config := None |}
       gitignore pkg
     = ( Returned (join LFs (filterLines false (split LF gitignore)
                             ++ [GIT_IGNORE_START_LINE; GIT_IGNORE_END_LINE])),
         Returned (<["exports" := JObj ∅]>
                   (<["files" := JArr [JStr "dist"]]> pkg)) ).
Proof.
  split.
  - unfold SyncFileDocumented.main.
    rewrite registerExposedFiles_content, registerGITIgnoreFiles_lines.
    eauto.
  - unfold SyncFileDocumented.main. cbn [js_file static_files custom_config].
    change (default [] None) with (@nil JsFileEntry) at 1.
    by rewrite registerExposedFiles_content, registerGITIgnoreFiles_lines.
Qed.

End ConsistencyFacts.
